(** * Chicken-coop door controller: the control core of the firmware

    A shallow embedding of [src/main.c] and [stepper.c]: the stepper
    sequencer, the ZCL attribute bridge, the identify blinker and the
    button classifier, with the properties of the specification that
    concern them.

    The firmware runs on a cooperative scheduler, so every C function is a
    transformer of one global machine state ([world]).  Vendor code (the
    Zigbee stack, the DK board library, the factory-reset helper, the GPIO
    HAL) is not part of the repository: it is observed through the calls the
    application makes to it and through the answers it returns. *)

From Stdlib Require Import ZArith Zquot.
From stdpp Require Import base numbers list strings gmap.

Set Warnings "-clear-no-such-hyp".

Local Open Scope Z_scope.

(** ** Vendor types and constants *)

(** [zb_ret_t]: the status codes of the Zigbee stack that the application
    names, and one constructor for every other code. *)
Inductive zb_ret_t :=
| RET_OK
| RET_INVALID_STATE
| RET_NOT_IMPLEMENTED
| RET_OTHER (code : Z).

(** Functions handed to the stack scheduler ([zb_callback_t] pointers). *)
Inductive zb_callback_t :=
| CB_start_identifying
| CB_toggle_identify_led.

(** The time argument of an alarm; the conversion macro of the stack is kept
    symbolic. *)
Inductive zb_time_t :=
| ZB_MILLISECONDS_TO_BEACON_INTERVAL (ms : Z).

Inductive zb_alarm_param :=
| ZB_ALARM_ANY_PARAM
| ZB_ALARM_PARAM (param : Z).

Record zb_alarm := {
  al_func : zb_callback_t;
  al_param : Z;
  al_time : zb_time_t
}.

(** Identifier of the device callback ([device_cb_id]). *)
Inductive zb_zcl_device_callback_id_t :=
| ZB_ZCL_SET_ATTR_VALUE_CB_ID
| ZB_ZCL_OTHER_CB_ID (id : Z).

(** [cb_param.set_attr_value_param]: the cluster and attribute identifiers
    as the stack delivers them, and the byte view [values.data8] of the
    written value. *)
Record zb_zcl_set_attr_value_param_t := {
  cluster_id : Z;
  attr_id : Z;
  data8 : Z
}.

Record zb_zcl_device_callback_param_t := {
  device_cb_id : zb_zcl_device_callback_id_t;
  status : zb_ret_t;
  set_attr_value_param : zb_zcl_set_attr_value_param_t
}.

(** Values fixed by the ZCL standard. *)
Definition ZB_ZCL_CLUSTER_ID_ON_OFF : Z := 6.
Definition ZB_ZCL_ATTR_ON_OFF_ON_OFF_ID : Z := 0.
Definition ZB_ZCL_IDENTIFY_IDENTIFY_TIME_DEFAULT_VALUE : Z := 0.
Definition ZB_ZCL_ON_OFF_IS_ON : Z := 1.
Definition ZB_ZCL_BASIC_POWER_SOURCE_DC_SOURCE : Z := 4.
Definition ZB_ZCL_BASIC_ENV_UNSPECIFIED : Z := 0.

(** Board library: LED indices and button masks of the development kit. *)
Definition DK_LED1 : Z := 0.
Definition DK_LED3 : Z := 2.
Definition DK_LED4 : Z := 3.
Definition DK_BTN4_MSK : Z := Z.shiftl 1 3.

(** C integer conversions: truncation to [uint8_t], and [int] arithmetic
    taken to wrap around in two's complement. *)
Definition to_uint8 (x : Z) : Z := x mod 256.
Definition to_int (x : Z) : Z := (x + 2147483648) mod 4294967296 - 2147483648.

(** ** Constants of the application *)

Definition RUN_STATUS_LED : Z := DK_LED1.
Definition CHICKEN_COOP_ENDPOINT : Z := 10.
Definition BULB_INIT_BASIC_APP_VERSION : Z := 1.
Definition BULB_INIT_BASIC_STACK_VERSION : Z := 10.
Definition BULB_INIT_BASIC_HW_VERSION : Z := 11.
Definition BULB_INIT_BASIC_MANUF_NAME : string := "Nordic".
Definition BULB_INIT_BASIC_MODEL_ID : string := "Chicken_Coop_v0.1".
Definition BULB_INIT_BASIC_DATE_CODE : string := "20231121".
Definition BULB_INIT_BASIC_POWER_SOURCE : Z := ZB_ZCL_BASIC_POWER_SOURCE_DC_SOURCE.
Definition BULB_INIT_BASIC_LOCATION_DESC : string := "Outside".
Definition BULB_INIT_BASIC_PH_ENV : Z := ZB_ZCL_BASIC_ENV_UNSPECIFIED.
Definition ZIGBEE_NETWORK_STATE_LED : Z := DK_LED3.
Definition IDENTIFY_LED : Z := DK_LED4.
Definition IDENTIFY_MODE_BUTTON : Z := DK_BTN4_MSK.
Definition FACTORY_RESET_BUTTON : Z := IDENTIFY_MODE_BUTTON.

(** [stepper.h].  The pin macro belongs to the GPIO header of the vendor;
    [stepper.h] quotes it in a comment, [((port << 5) | (pin & 0x1F))], and
    it is taken from that line.  On [Z] it agrees with the 32-bit macro as
    long as [port << 5] fits an [int]; the program uses it at port 1 and
    pins 4, 7 and 10 only. *)
Definition NRF_GPIO_PIN_MAP (port pin : Z) : Z :=
  Z.lor (Z.shiftl port 5) (Z.land pin 31).
Definition motor_step : Z := NRF_GPIO_PIN_MAP 1 4.
Definition motor_dir : Z := NRF_GPIO_PIN_MAP 1 7.
Definition motor_enable : Z := NRF_GPIO_PIN_MAP 1 10.
Definition steps_to_endstop : Z := 100.
Definition stepper_speed : Z := 800.

(** ** The device context *)

Record zb_zcl_basic_attrs_ext_t := {
  zcl_version : Z;
  app_version : Z;
  stack_version : Z;
  hw_version : Z;
  mf_name : list Z;
  model_id : list Z;
  date_code : list Z;
  power_source : Z;
  location_id : list Z;
  ph_env : Z;
  sw_ver : list Z
}.

Record zb_zcl_identify_attrs_t := { identify_time : Z }.

Record zb_zcl_scenes_attrs_t := {
  scene_count : Z;
  current_scene : Z;
  current_group : Z;
  scene_valid : Z;
  scenes_name_support : Z
}.

Record zb_zcl_groups_attrs_t := { groups_name_support : Z }.

Record zb_zcl_on_off_attrs_t := { on_off : Z }.

Record bulb_device_ctx_t := {
  basic_attr : zb_zcl_basic_attrs_ext_t;
  identify_attr : zb_zcl_identify_attrs_t;
  scenes_attr : zb_zcl_scenes_attrs_t;
  groups_attr : zb_zcl_groups_attrs_t;
  on_off_attr : zb_zcl_on_off_attrs_t
}.

(** ** The machine state *)

(** Operations on the motor pins and the delays between them, in the order
    the program issues them. *)
Inductive hw_event :=
| EvCfgOutput (pin : Z)
| EvPinSet (pin : Z)
| EvPinClear (pin : Z)
| EvUSleep (us : Z).

(** Calls into vendor code whose effect lies outside the application. *)
Inductive vendor_call :=
| Call_zb_bdb_finding_binding_target (endpoint : Z)
| Call_zb_bdb_finding_binding_target_cancel
| Call_was_factory_reset_done
| Call_check_factory_reset_button (button_state has_changed : Z)
| Call_zcl_scenes_cb (bufid : Z).

Inductive log_level := LOG_LEVEL_ERR | LOG_LEVEL_WRN | LOG_LEVEL_INF | LOG_LEVEL_DBG.

Inductive log_arg :=
| ArgInt (n : Z)
| ArgStr (s : string)
| ArgCbId (id : zb_zcl_device_callback_id_t)
| ArgRet (r : zb_ret_t).

Record log_msg := {
  msg_level : log_level;
  msg_fmt : string;
  msg_args : list log_arg
}.

(** What vendor code answers when asked. *)
Record vendor_answers := {
  ZB_JOINED : bool;
  factory_reset_done : bool;
  finding_binding_target_ret : zb_ret_t;
  alarm_cancel_ret : zb_ret_t;
  zcl_scenes_handled : bool
}.

Record world := {
  dev_ctx : bulb_device_ctx_t;
  blink_status : Z;                 (* static int of toggle_identify_led *)
  gpio_dir : gset Z;                (* pins configured as outputs *)
  gpio_out : gset Z;                (* pins whose output latch is 1 *)
  leds : gset Z;                    (* board LEDs that are lit *)
  hw_trace : list hw_event;
  callbacks : list (zb_callback_t * Z);
  alarms : list zb_alarm;
  bufs : gmap Z zb_zcl_device_callback_param_t;
  vendor : vendor_answers;
  vendor_calls : list vendor_call;
  console : list log_msg
}.

(** A run either returns, or stops the firmware in the stack's fatal error
    handler. *)
Inductive fault :=
| ErrorCheck (e : zb_ret_t)
| InvalidBuffer (bufid : Z).

Inductive outcome (A : Type) :=
| Done (a : A) (w : world)
| Fatal (f : fault) (w : world).
Arguments Done {A} a w.
Arguments Fatal {A} f w.

Definition M (A : Type) : Type := world -> outcome A.

Definition ret {A} (a : A) : M A := fun w => Done a w.

Definition bind {A B} (m : M A) (k : A -> M B) : M B :=
  fun w => match m w with
           | Done a w' => k a w'
           | Fatal f w' => Fatal f w'
           end.

Definition halt {A} (f : fault) : M A := fun w => Fatal f w.
Definition gets {A} (f : world -> A) : M A := fun w => Done (f w) w.
Definition modify (f : world -> world) : M unit := fun w => Done tt (f w).

Declare Scope fw_scope.
Delimit Scope fw_scope with fw.
Notation "x <- c1 ;; c2" := (bind c1 (fun x => c2))
  (at level 100, c1 at next level, right associativity) : fw_scope.
Notation "c1 ;; c2" := (bind c1 (fun _ => c2))
  (at level 100, right associativity) : fw_scope.
Local Open Scope fw_scope.

(** The state in which an outcome leaves the machine. *)
Definition final {A} (o : outcome A) : world :=
  match o with Done _ w => w | Fatal _ w => w end.

(** Field updates. *)
Definition set_dev_ctx (d : bulb_device_ctx_t) (w : world) : world :=
  {| dev_ctx := d; blink_status := blink_status w; gpio_dir := gpio_dir w;
     gpio_out := gpio_out w; leds := leds w; hw_trace := hw_trace w;
     callbacks := callbacks w; alarms := alarms w; bufs := bufs w;
     vendor := vendor w; vendor_calls := vendor_calls w; console := console w |}.

Definition set_blink_status (b : Z) (w : world) : world :=
  {| dev_ctx := dev_ctx w; blink_status := b; gpio_dir := gpio_dir w;
     gpio_out := gpio_out w; leds := leds w; hw_trace := hw_trace w;
     callbacks := callbacks w; alarms := alarms w; bufs := bufs w;
     vendor := vendor w; vendor_calls := vendor_calls w; console := console w |}.

Definition set_gpio (dir out : gset Z) (ev : hw_event) (w : world) : world :=
  {| dev_ctx := dev_ctx w; blink_status := blink_status w; gpio_dir := dir;
     gpio_out := out; leds := leds w; hw_trace := hw_trace w ++ [ev];
     callbacks := callbacks w; alarms := alarms w; bufs := bufs w;
     vendor := vendor w; vendor_calls := vendor_calls w; console := console w |}.

Definition set_leds (l : gset Z) (w : world) : world :=
  {| dev_ctx := dev_ctx w; blink_status := blink_status w; gpio_dir := gpio_dir w;
     gpio_out := gpio_out w; leds := l; hw_trace := hw_trace w;
     callbacks := callbacks w; alarms := alarms w; bufs := bufs w;
     vendor := vendor w; vendor_calls := vendor_calls w; console := console w |}.

Definition set_callbacks (c : list (zb_callback_t * Z)) (w : world) : world :=
  {| dev_ctx := dev_ctx w; blink_status := blink_status w; gpio_dir := gpio_dir w;
     gpio_out := gpio_out w; leds := leds w; hw_trace := hw_trace w;
     callbacks := c; alarms := alarms w; bufs := bufs w;
     vendor := vendor w; vendor_calls := vendor_calls w; console := console w |}.

Definition set_alarms (a : list zb_alarm) (w : world) : world :=
  {| dev_ctx := dev_ctx w; blink_status := blink_status w; gpio_dir := gpio_dir w;
     gpio_out := gpio_out w; leds := leds w; hw_trace := hw_trace w;
     callbacks := callbacks w; alarms := a; bufs := bufs w;
     vendor := vendor w; vendor_calls := vendor_calls w; console := console w |}.

Definition set_bufs (b : gmap Z zb_zcl_device_callback_param_t) (w : world) : world :=
  {| dev_ctx := dev_ctx w; blink_status := blink_status w; gpio_dir := gpio_dir w;
     gpio_out := gpio_out w; leds := leds w; hw_trace := hw_trace w;
     callbacks := callbacks w; alarms := alarms w; bufs := b;
     vendor := vendor w; vendor_calls := vendor_calls w; console := console w |}.

Definition add_vendor_call (c : vendor_call) (w : world) : world :=
  {| dev_ctx := dev_ctx w; blink_status := blink_status w; gpio_dir := gpio_dir w;
     gpio_out := gpio_out w; leds := leds w; hw_trace := hw_trace w;
     callbacks := callbacks w; alarms := alarms w; bufs := bufs w;
     vendor := vendor w; vendor_calls := vendor_calls w ++ [c]; console := console w |}.

Definition add_console (m : log_msg) (w : world) : world :=
  {| dev_ctx := dev_ctx w; blink_status := blink_status w; gpio_dir := gpio_dir w;
     gpio_out := gpio_out w; leds := leds w; hw_trace := hw_trace w;
     callbacks := callbacks w; alarms := alarms w; bufs := bufs w;
     vendor := vendor w; vendor_calls := vendor_calls w; console := console w ++ [m] |}.

(** ** Platform primitives *)

(** GPIO HAL: the direction bit and the output latch of one pin. *)
Definition nrf_gpio_cfg_output (pin : Z) : M unit :=
  modify (fun w => set_gpio (gpio_dir w ∪ {[pin]}) (gpio_out w) (EvCfgOutput pin) w).

Definition nrf_gpio_pin_set (pin : Z) : M unit :=
  modify (fun w => set_gpio (gpio_dir w) (gpio_out w ∪ {[pin]}) (EvPinSet pin) w).

Definition nrf_gpio_pin_clear (pin : Z) : M unit :=
  modify (fun w => set_gpio (gpio_dir w) (gpio_out w ∖ {[pin]}) (EvPinClear pin) w).

(** Kernel: a blocking delay. *)
Definition k_usleep (us : Z) : M unit :=
  modify (fun w => set_gpio (gpio_dir w) (gpio_out w) (EvUSleep us) w).

(** [for (int i = lo; i < hi; i++) body]: the body does not assign [i], so
    the loop runs [hi - lo] times (none when [hi <= lo]). *)
Fixpoint for_count (n : nat) (i : Z) (body : Z -> M unit) : M unit :=
  match n with
  | O => ret tt
  | S n' => body i;; for_count n' (i + 1) body
  end.

Definition for_lt (lo hi : Z) (body : Z -> M unit) : M unit :=
  for_count (Z.to_nat (hi - lo)) lo body.

(** ** [stepper.c] *)

Definition stepper_init : M unit :=
  nrf_gpio_cfg_output motor_step;;
  nrf_gpio_cfg_output motor_dir;;
  nrf_gpio_cfg_output motor_enable;;
  (* Set the direction *)
  nrf_gpio_pin_set motor_dir;;
  (* Disable the motor *)
  nrf_gpio_pin_set motor_enable.

Definition stepper_run (dir : bool) : M unit :=
  (* Enable the motor *)
  nrf_gpio_pin_clear motor_enable;;
  (* Set the direction based on input *)
  (if dir then nrf_gpio_pin_set motor_dir else nrf_gpio_pin_clear motor_dir);;
  (* Run the motors *)
  for_lt 0 steps_to_endstop (fun _ =>
    nrf_gpio_pin_set motor_step;;
    k_usleep stepper_speed;;
    nrf_gpio_pin_clear motor_step;;
    k_usleep stepper_speed);;
  (* Disable motor *)
  nrf_gpio_pin_set motor_enable.

(** ** Vendor primitives used by [main.c] *)

(** Logging: [LOG_MODULE_REGISTER(app, LOG_LEVEL_INF)] compiles out every
    message below the informational level. *)
Definition level_rank (l : log_level) : Z :=
  match l with
  | LOG_LEVEL_ERR => 1
  | LOG_LEVEL_WRN => 2
  | LOG_LEVEL_INF => 3
  | LOG_LEVEL_DBG => 4
  end.

Definition app_log_level : log_level := LOG_LEVEL_INF.

Definition log_at (l : log_level) (fmt : string) (args : list log_arg) : M unit :=
  if level_rank l <=? level_rank app_log_level
  then modify (add_console {| msg_level := l; msg_fmt := fmt; msg_args := args |})
  else ret tt.

Definition LOG_ERR := log_at LOG_LEVEL_ERR.
Definition LOG_WRN := log_at LOG_LEVEL_WRN.
Definition LOG_INF := log_at LOG_LEVEL_INF.
Definition LOG_DBG := log_at LOG_LEVEL_DBG.

(** Board library: an LED is lit exactly when the value is not zero. *)
Definition dk_set_led (led_idx val : Z) : M unit :=
  modify (fun w => set_leds (if val =? 0 then leds w ∖ {[led_idx]}
                             else leds w ∪ {[led_idx]}) w).

(** Stack scheduler: a queue of callbacks to run at once and a list of
    alarms to run after a delay. *)
Definition ZB_SCHEDULE_APP_CALLBACK (func : zb_callback_t) (param : Z) : M unit :=
  modify (fun w => set_callbacks (callbacks w ++ [(func, param)]) w).

Definition ZB_SCHEDULE_APP_ALARM (func : zb_callback_t) (param : Z) (t : zb_time_t)
  : M unit :=
  modify (fun w => set_alarms
    (alarms w ++ [{| al_func := func; al_param := param; al_time := t |}]) w).

Definition zb_callback_eqb (f g : zb_callback_t) : bool :=
  match f, g with
  | CB_start_identifying, CB_start_identifying => true
  | CB_toggle_identify_led, CB_toggle_identify_led => true
  | _, _ => false
  end.

Definition alarm_matches (func : zb_callback_t) (p : zb_alarm_param) (a : zb_alarm)
  : bool :=
  zb_callback_eqb (al_func a) func &&
  match p with
  | ZB_ALARM_ANY_PARAM => true
  | ZB_ALARM_PARAM q => al_param a =? q
  end.

(** Cancelling removes the first scheduled alarm that matches; with
    [ZB_ALARM_ANY_PARAM] every alarm of the function matches. *)
Fixpoint cancel_first (func : zb_callback_t) (p : zb_alarm_param)
  (l : list zb_alarm) : list zb_alarm :=
  match l with
  | [] => []
  | a :: l' => if alarm_matches func p a then l' else a :: cancel_first func p l'
  end.

Definition ZB_SCHEDULE_APP_ALARM_CANCEL (func : zb_callback_t) (p : zb_alarm_param)
  : M zb_ret_t :=
  modify (fun w => set_alarms (cancel_first func p (alarms w)) w);;
  gets (fun w => alarm_cancel_ret (vendor w)).

(** Assignment to [dev_ctx.on_off_attr.on_off]. *)
Definition set_on_off (v : Z) (d : bulb_device_ctx_t) : bulb_device_ctx_t :=
  {| basic_attr := basic_attr d; identify_attr := identify_attr d;
     scenes_attr := scenes_attr d; groups_attr := groups_attr d;
     on_off_attr := {| on_off := v |} |}.

(** Modelled from the spec: the macro [ZB_ZCL_SET_ATTRIBUTE] of the stack
    headers is missing; the application uses it only for the on/off attribute
    of the on/off cluster of its endpoint, whose storage the attribute list
    declares to be [dev_ctx.on_off_attr.on_off].  It "writes the value into
    AttributeStore": the byte it is pointed to becomes the stored value. *)
Definition ZB_ZCL_SET_ATTRIBUTE_on_off (value : Z) : M unit :=
  modify (fun w => set_dev_ctx (set_on_off (to_uint8 value) (dev_ctx w)) w).

(** [ZB_BUF_GET_PARAM]: the callback parameter stored in a stack buffer. *)
Definition ZB_BUF_GET_PARAM (bufid : Z) : M zb_zcl_device_callback_param_t :=
  fun w => match bufs w !! bufid with
           | Some p => Done p w
           | None => Fatal (InvalidBuffer bufid) w
           end.

Definition set_status (bufid : Z) (s : zb_ret_t) : M unit :=
  modify (fun w => set_bufs
    (alter (fun p => {| device_cb_id := device_cb_id p; status := s;
                        set_attr_value_param := set_attr_value_param p |})
           bufid (bufs w)) w).

(** [ZB_ERROR_CHECK]: any code but [RET_OK] ends in the fatal error
    handler. *)
Definition ZB_ERROR_CHECK (e : zb_ret_t) : M unit :=
  match e with
  | RET_OK => ret tt
  | _ => halt (ErrorCheck e)
  end.

Definition call_vendor (c : vendor_call) : M unit := modify (add_vendor_call c).

Definition zb_bdb_finding_binding_target (endpoint : Z) : M zb_ret_t :=
  call_vendor (Call_zb_bdb_finding_binding_target endpoint);;
  gets (fun w => finding_binding_target_ret (vendor w)).

Definition zb_bdb_finding_binding_target_cancel : M unit :=
  call_vendor Call_zb_bdb_finding_binding_target_cancel.

Definition was_factory_reset_done : M bool :=
  call_vendor Call_was_factory_reset_done;;
  gets (fun w => factory_reset_done (vendor w)).

Definition check_factory_reset_button (button_state has_changed : Z) : M unit :=
  call_vendor (Call_check_factory_reset_button button_state has_changed).

Definition zcl_scenes_cb (bufid : Z) : M bool :=
  call_vendor (Call_zcl_scenes_cb bufid);;
  gets (fun w => zcl_scenes_handled (vendor w)).

(** ** [main.c] *)

Definition zb_ret_eqb (a b : zb_ret_t) : bool :=
  match a, b with
  | RET_OK, RET_OK => true
  | RET_INVALID_STATE, RET_INVALID_STATE => true
  | RET_NOT_IMPLEMENTED, RET_NOT_IMPLEMENTED => true
  | RET_OTHER x, RET_OTHER y => x =? y
  | _, _ => false
  end.

Definition start_identifying (bufid : Z) : M unit :=
  joined <- gets (fun w => ZB_JOINED (vendor w));;
  if joined then
    (* Check if endpoint is in identifying mode,
       if not, put desired endpoint in identifying mode. *)
    t <- gets (fun w => identify_time (identify_attr (dev_ctx w)));;
    if t =? ZB_ZCL_IDENTIFY_IDENTIFY_TIME_DEFAULT_VALUE then
      zb_err_code <- zb_bdb_finding_binding_target CHICKEN_COOP_ENDPOINT;;
      if zb_ret_eqb zb_err_code RET_OK then
        LOG_INF "Enter identify mode" []
      else if zb_ret_eqb zb_err_code RET_INVALID_STATE then
        LOG_WRN "RET_INVALID_STATE - Cannot enter identify mode" []
      else
        ZB_ERROR_CHECK zb_err_code
    else
      LOG_INF "Cancel identify mode" [];;
      zb_bdb_finding_binding_target_cancel
  else
    LOG_WRN "Device not in a network - cannot enter identify mode" [].

Definition button_changed (button_state has_changed : Z) : M unit :=
  (if negb (Z.land IDENTIFY_MODE_BUTTON has_changed =? 0) then
     if negb (Z.land IDENTIFY_MODE_BUTTON button_state =? 0) then
       (* Button changed its state to pressed *)
       ret tt
     else
       (* Button changed its state to released *)
       done <- was_factory_reset_done;;
       if done then
         (* The long press was for Factory Reset *)
         LOG_DBG "After Factory Reset - ignore button release" []
       else
         (* Button released before Factory Reset *)
         (* Start identification mode *)
         ZB_SCHEDULE_APP_CALLBACK CB_start_identifying 0
   else ret tt);;
  check_factory_reset_button button_state has_changed.

Definition on_off_set_value (on : Z) : M unit :=
  LOG_INF "Set ON/OFF value: %i" [ArgInt on];;
  ZB_ZCL_SET_ATTRIBUTE_on_off on;;
  if negb (on =? 0) then stepper_run true else stepper_run false.

Definition toggle_identify_led (bufid : Z) : M unit :=
  modify (fun w => set_blink_status (to_int (blink_status w + 1)) w);;
  b <- gets blink_status;;
  dk_set_led IDENTIFY_LED (Z.rem b 2);;
  ZB_SCHEDULE_APP_ALARM CB_toggle_identify_led bufid
    (ZB_MILLISECONDS_TO_BEACON_INTERVAL 100).

Definition identify_cb (bufid : Z) : M unit :=
  if negb (bufid =? 0) then
    (* Schedule a self-scheduling function that will toggle the LED. *)
    ZB_SCHEDULE_APP_CALLBACK CB_toggle_identify_led bufid
  else
    (* Cancel the toggling function alarm and restore current Zigbee LED state. *)
    zb_err_code <- ZB_SCHEDULE_APP_ALARM_CANCEL CB_toggle_identify_led ZB_ALARM_ANY_PARAM;;
    dk_set_led IDENTIFY_LED 0.

(** [ZB_ZCL_SET_STRING_VAL]: "the first byte should contain string length
    without trailing zero", then the characters. *)
Definition ZB_ZCL_SET_STRING_VAL (val : string) : list Z :=
  Z.of_nat (String.length val)
    :: map (fun c => Z.of_N (Ascii.N_of_ascii c)) (String.list_ascii_of_string val).

Section ClusterInit.

(** ZCL revision announced by the stack headers. *)
Variable ZB_ZCL_VERSION : Z.

Definition bulb_clusters_attr_init : M unit :=
  (* Basic cluster attributes data *)
  modify (fun w =>
    let d := dev_ctx w in
    set_dev_ctx
      {| basic_attr :=
           {| zcl_version := ZB_ZCL_VERSION;
              app_version := BULB_INIT_BASIC_APP_VERSION;
              stack_version := BULB_INIT_BASIC_STACK_VERSION;
              hw_version := BULB_INIT_BASIC_HW_VERSION;
              mf_name := ZB_ZCL_SET_STRING_VAL BULB_INIT_BASIC_MANUF_NAME;
              model_id := ZB_ZCL_SET_STRING_VAL BULB_INIT_BASIC_MODEL_ID;
              date_code := ZB_ZCL_SET_STRING_VAL BULB_INIT_BASIC_DATE_CODE;
              power_source := BULB_INIT_BASIC_POWER_SOURCE;
              location_id := ZB_ZCL_SET_STRING_VAL BULB_INIT_BASIC_LOCATION_DESC;
              ph_env := BULB_INIT_BASIC_PH_ENV;
              sw_ver := sw_ver (basic_attr d) |};
         (* Identify cluster attributes data. *)
         identify_attr :=
           {| identify_time := ZB_ZCL_IDENTIFY_IDENTIFY_TIME_DEFAULT_VALUE |};
         scenes_attr := scenes_attr d;
         groups_attr := groups_attr d;
         (* On/Off cluster attributes data. *)
         on_off_attr := {| on_off := ZB_ZCL_ON_OFF_IS_ON |} |} w);;
  v <- gets (fun w => on_off (on_off_attr (dev_ctx w)));;
  ZB_ZCL_SET_ATTRIBUTE_on_off v.

End ClusterInit.

Definition zcl_device_cb (bufid : Z) : M unit :=
  device_cb_param <- ZB_BUF_GET_PARAM bufid;;
  LOG_INF "%s id %hd"
    [ArgStr "zcl_device_cb"; ArgCbId (device_cb_id device_cb_param)];;
  (* Set default response value. *)
  set_status bufid RET_OK;;
  (match device_cb_id device_cb_param with
   | ZB_ZCL_SET_ATTR_VALUE_CB_ID =>
       let cluster_id :=
         to_uint8 (cluster_id (set_attr_value_param device_cb_param)) in
       let attr_id :=
         to_uint8 (attr_id (set_attr_value_param device_cb_param)) in
       if cluster_id =? ZB_ZCL_CLUSTER_ID_ON_OFF then
         let value := to_uint8 (data8 (set_attr_value_param device_cb_param)) in
         LOG_INF "on/off attribute setting to %hd" [ArgInt value];;
         if attr_id =? ZB_ZCL_ATTR_ON_OFF_ON_OFF_ID then
           on_off_set_value value
         else ret tt
       else
         (* Other clusters can be processed here *)
         LOG_INF "Unhandled cluster attribute id: %d" [ArgInt cluster_id];;
         set_status bufid RET_NOT_IMPLEMENTED
   | _ =>
       handled <- zcl_scenes_cb bufid;;
       if handled then ret tt else set_status bufid RET_NOT_IMPLEMENTED
   end);;
  p <- ZB_BUF_GET_PARAM bufid;;
  LOG_INF "%s status: %hd" [ArgStr "zcl_device_cb"; ArgRet (status p)].

(** ** The scheduler loop of the stack *)

Definition run_callback (f : zb_callback_t) (param : Z) : M unit :=
  match f with
  | CB_start_identifying => start_identifying param
  | CB_toggle_identify_led => toggle_identify_led param
  end.

(** Runs the oldest queued callback, if there is one. *)
Definition zb_sched_callback : M unit :=
  q <- gets callbacks;;
  match q with
  | [] => ret tt
  | (f, param) :: q' => modify (set_callbacks q');; run_callback f param
  end.

(** Fires the oldest pending alarm, if there is one. *)
Definition zb_sched_alarm : M unit :=
  l <- gets alarms;;
  match l with
  | [] => ret tt
  | a :: l' => modify (set_alarms l');; run_callback (al_func a) (al_param a)
  end.

Fixpoint repeat_m (n : nat) (m : M unit) : M unit :=
  match n with
  | O => ret tt
  | S n' => m;; repeat_m n' m
  end.

(** ** The state at reset and after start-up *)

Definition zero_ctx : bulb_device_ctx_t :=
  {| basic_attr :=
       {| zcl_version := 0; app_version := 0; stack_version := 0; hw_version := 0;
          mf_name := []; model_id := []; date_code := []; power_source := 0;
          location_id := []; ph_env := 0; sw_ver := [] |};
     identify_attr := {| identify_time := 0 |};
     scenes_attr := {| scene_count := 0; current_scene := 0; current_group := 0;
                       scene_valid := 0; scenes_name_support := 0 |};
     groups_attr := {| groups_name_support := 0 |};
     on_off_attr := {| on_off := 0 |} |}.

(** Statics are zero, no pin is configured, nothing is scheduled. *)
Definition reset_world (v : vendor_answers)
  (b : gmap Z zb_zcl_device_callback_param_t) : world :=
  {| dev_ctx := zero_ctx; blink_status := 0; gpio_dir := ∅; gpio_out := ∅;
     leds := ∅; hw_trace := []; callbacks := []; alarms := []; bufs := b;
     vendor := v; vendor_calls := []; console := [] |}.

(** The two initialisers of the application that [main] calls, in its
    order. *)
Definition app_init (zcl_ver : Z) : M unit :=
  bulb_clusters_attr_init zcl_ver;;
  stepper_init.

(** * Observations and example states *)

(** The only change a motor operation makes: a new output latch and more
    events. *)
Definition upd_hw (out : gset Z) (evs : list hw_event) (w : world) : world :=
  {| dev_ctx := dev_ctx w; blink_status := blink_status w; gpio_dir := gpio_dir w;
     gpio_out := out; leds := leds w; hw_trace := hw_trace w ++ evs;
     callbacks := callbacks w; alarms := alarms w; bufs := bufs w;
     vendor := vendor w; vendor_calls := vendor_calls w; console := console w |}.

(** The events of one step pulse, and the loop body that issues them. *)
Definition pulse : list hw_event :=
  [EvPinSet motor_step; EvUSleep 800; EvPinClear motor_step; EvUSleep 800].

Definition pulse_body (_ : Z) : M unit :=
  nrf_gpio_pin_set motor_step;;
  k_usleep stepper_speed;;
  nrf_gpio_pin_clear motor_step;;
  k_usleep stepper_speed.

(** The events of one whole actuation sequence, and the output latch it
    leaves. *)
Definition run_trace (dir : bool) : list hw_event :=
  [EvPinClear motor_enable;
   if dir then EvPinSet motor_dir else EvPinClear motor_dir]
  ++ concat (replicate 100 pulse)
  ++ [EvPinSet motor_enable].

Definition run_out (dir : bool) (out : gset Z) : gset Z :=
  ((if dir then (out ∖ {[motor_enable]}) ∪ {[motor_dir]}
    else (out ∖ {[motor_enable]}) ∖ {[motor_dir]}) ∖ {[motor_step]})
  ∪ {[motor_enable]}.

(** The warning of [start_identifying] outside a network. *)
Definition msg_not_joined : log_msg :=
  {| msg_level := LOG_LEVEL_WRN;
     msg_fmt := "Device not in a network - cannot enter identify mode";
     msg_args := [] |}.

(** Vendor answers of a device that has not joined, and of one that has. *)
Definition vendor_example : vendor_answers :=
  {| ZB_JOINED := false; factory_reset_done := false;
     finding_binding_target_ret := RET_OK; alarm_cancel_ret := RET_OK;
     zcl_scenes_handled := false |}.

(** A state in which an identify countdown of [t] seconds is stored. *)
Definition with_identify_time (t : Z) (w : world) : world :=
  set_dev_ctx
    {| basic_attr := basic_attr (dev_ctx w);
       identify_attr := {| identify_time := t |};
       scenes_attr := scenes_attr (dev_ctx w);
       groups_attr := groups_attr (dev_ctx w);
       on_off_attr := on_off_attr (dev_ctx w) |} w.

Definition vendor_joined : vendor_answers :=
  {| ZB_JOINED := true; factory_reset_done := false;
     finding_binding_target_ret := RET_OK; alarm_cancel_ret := RET_OK;
     zcl_scenes_handled := false |}.

(** The blink timer as [toggle_identify_led] arms it. *)
Definition blink_alarm (bufid : Z) : zb_alarm :=
  {| al_func := CB_toggle_identify_led; al_param := bufid;
     al_time := ZB_MILLISECONDS_TO_BEACON_INTERVAL 100 |}.

(** Whether the identify LED is lit. *)
Definition lit (w : world) : bool := bool_decide (IDENTIFY_LED ∈ leds w).

(** Number of pending alarms of the blink timer. *)
Definition is_blink_alarm (a : zb_alarm) : bool :=
  zb_callback_eqb (al_func a) CB_toggle_identify_led.

Definition blink_pending (w : world) : nat :=
  length (List.filter is_blink_alarm (alarms w)).

(** One firing, then a cancel, then a second session. *)
Definition after_first_firing : world :=
  final (zb_sched_callback (final (identify_cb 1 (reset_world vendor_joined ∅)))).

Definition after_cancel : world := final (identify_cb 0 after_first_firing).

Definition second_session_first_firing : world :=
  final (zb_sched_callback (final (identify_cb 1 after_cancel))).

(** The status the bridge leaves in the buffer of the request. *)
Definition reply_status (bufid : Z) (w : world) : option zb_ret_t :=
  status <$> bufs w !! bufid.

(** Number of times the drive was enabled, that is of actuation sequences
    started. *)
Definition is_enable (e : hw_event) : bool :=
  match e with
  | EvPinClear pin => pin =? motor_enable
  | _ => false
  end.

Definition actuations (t : list hw_event) : nat := length (List.filter is_enable t).

(** The buffer parameter with its status replaced, and an informational
    console line. *)
Definition with_status (s : zb_ret_t) (p : zb_zcl_device_callback_param_t) :=
  {| device_cb_id := device_cb_id p; status := s;
     set_attr_value_param := set_attr_value_param p |}.

Definition info (fmt : string) (args : list log_arg) : log_msg :=
  {| msg_level := LOG_LEVEL_INF; msg_fmt := fmt; msg_args := args |}.

(** A write of [value] to the on/off attribute of the on/off cluster. *)
Definition on_off_write (value : Z) : zb_zcl_device_callback_param_t :=
  {| device_cb_id := ZB_ZCL_SET_ATTR_VALUE_CB_ID;
     status := RET_OK;
     set_attr_value_param :=
       {| cluster_id := ZB_ZCL_CLUSTER_ID_ON_OFF;
          attr_id := ZB_ZCL_ATTR_ON_OFF_ON_OFF_ID;
          data8 := value |} |}.

(** The state after start-up, with a write of "on" waiting in buffer 1. *)
Definition started : world :=
  final (app_init 8 (reset_world vendor_joined {[ 1 := on_off_write 1 ]})).

Definition first_write : world := final (zcl_device_cb 1 started).
Definition second_write : world := final (zcl_device_cb 1 first_write).

(** An attribute write to any cluster and attribute. *)
Definition write_to (cluster attr value : Z) : zb_zcl_device_callback_param_t :=
  {| device_cb_id := ZB_ZCL_SET_ATTR_VALUE_CB_ID;
     status := RET_OK;
     set_attr_value_param :=
       {| cluster_id := cluster; attr_id := attr; data8 := value |} |}.

(** The state after start-up, with the request [p] waiting in buffer 1. *)
Definition with_request (p : zb_zcl_device_callback_param_t) : world :=
  final (app_init 8 (reset_world vendor_joined {[ 1 := p ]})).

(** * The firmware as a reactive system *)

(** What the vendor side does to the application between two returns to
    the scheduler loop: the stack fills a buffer and calls the device
    callback registered in [main]; it calls the identify notification
    handler; it writes the identify time through the pointer the attribute
    list gave it; the board library reports a button change; the scheduler
    runs a queued callback or fires a pending alarm. *)
Inductive app_event :=
| ZclRequest (bufid : Z) (p : zb_zcl_device_callback_param_t)
| IdentifyNotification (bufid : Z)
| IdentifyTimeWritten (t : Z)
| ButtonChange (button_state has_changed : Z)
| SchedulerCallback
| SchedulerAlarm.

Definition handle (e : app_event) : M unit :=
  match e with
  | ZclRequest bufid p =>
      modify (fun w => set_bufs (<[bufid := p]> (bufs w)) w);;
      zcl_device_cb bufid
  | IdentifyNotification bufid => identify_cb bufid
  | IdentifyTimeWritten t => modify (with_identify_time t)
  | ButtonChange button_state has_changed => button_changed button_state has_changed
  | SchedulerCallback => zb_sched_callback
  | SchedulerAlarm => zb_sched_alarm
  end.

Fixpoint run_events (es : list app_event) : M unit :=
  match es with
  | [] => ret tt
  | e :: es' => handle e;; run_events es'
  end.

(** ** Further observations *)

(** The events a run added to the motor trace. *)
Definition new_events (w w' : world) : list hw_event :=
  drop (length (hw_trace w)) (hw_trace w').

(** Sum of the delays of a trace, in microseconds, and number of rising
    edges on the step pin. *)
Definition delay_of (e : hw_event) : Z :=
  match e with
  | EvUSleep us => us
  | _ => 0
  end.

Definition total_delay (t : list hw_event) : Z :=
  foldr (fun e acc => delay_of e + acc) 0 t.

Definition is_step_edge (e : hw_event) : bool :=
  match e with
  | EvPinSet pin => pin =? motor_step
  | _ => false
  end.

Definition step_pulses (t : list hw_event) : nat :=
  length (List.filter is_step_edge t).

(** The enable latch after a trace: cleared (drive enabled) by a clear of
    the enable pin, set (drive disabled) by a set of it. *)
Definition enabled_after (enabled : bool) (e : hw_event) : bool :=
  match e with
  | EvPinClear pin => if pin =? motor_enable then true else enabled
  | EvPinSet pin => if pin =? motor_enable then false else enabled
  | _ => enabled
  end.

(** Replays a trace and tells whether every rising edge on the step pin
    comes while the drive is enabled. *)
Fixpoint steps_while_enabled (enabled : bool) (t : list hw_event) : bool :=
  match t with
  | [] => true
  | e :: t' =>
      (if is_step_edge e then enabled else true)
      && steps_while_enabled (enabled_after enabled e) t'
  end.

(** The motor at rest: its three pins are outputs, the drive is disabled and
    the step pin is low. *)
Definition motor_idle (w : world) : Prop :=
  motor_step ∈ gpio_dir w ∧ motor_dir ∈ gpio_dir w ∧ motor_enable ∈ gpio_dir w
  ∧ motor_enable ∈ gpio_out w
  ∧ motor_step ∉ gpio_out w.

(** What a run did to the motor: the actuation sequences [runs], one after
    the other, and nothing else. *)
Definition motor_steps (w w' : world) (runs : list bool) : Prop :=
  hw_trace w' = hw_trace w ++ concat (map run_trace runs)
  ∧ gpio_out w' = foldl (fun out dir => run_out dir out) (gpio_out w) runs
  ∧ gpio_dir w' = gpio_dir w.

Definition moves {A} (m : M A) : Prop :=
  ∀ w, ∃ runs, motor_steps w (final (m w)) runs.

(** An action keeps an observation [f] of the state, whether it returns or
    stops in the error handler. *)
Definition keeps {A T} (f : world → T) (m : M A) : Prop :=
  ∀ w, f (final (m w)) = f w.


(** A device of which the stack says it has joined and that answers the
    request to enter identify mode with [r]. *)
Definition vendor_answering (r : zb_ret_t) : vendor_answers :=
  {| ZB_JOINED := true; factory_reset_done := false;
     finding_binding_target_ret := r; alarm_cancel_ret := RET_OK;
     zcl_scenes_handled := false |}.

(** A callback of the stack that is not an attribute write. *)
Definition other_callback (id : Z) : zb_zcl_device_callback_param_t :=
  {| device_cb_id := ZB_ZCL_OTHER_CB_ID id;
     status := RET_OK;
     set_attr_value_param := {| cluster_id := 0; attr_id := 0; data8 := 0 |} |}.

(** An action that writes neither the device context, nor a pin, nor a
    buffer of the stack. *)
Definition leaves_store_and_pins {A} (m : M A) : Prop :=
  keeps dev_ctx m ∧ keeps gpio_out m ∧ keeps gpio_dir m
  ∧ keeps hw_trace m ∧ keeps bufs m.


(** One identify session: the notification that starts it, the queued first
    toggle, [n] firings of the blink alarm, and the notification that ends
    it. *)
Definition identify_session (bufid : Z) (n : nat) : list app_event :=
  [IdentifyNotification bufid; SchedulerCallback]
  ++ replicate n SchedulerAlarm
  ++ [IdentifyNotification 0].

(** The console lines of [start_identifying] when the stack enters identify
    mode and when it refuses. *)
Definition msg_enter : log_msg :=
  {| msg_level := LOG_LEVEL_INF; msg_fmt := "Enter identify mode"; msg_args := [] |}.

Definition msg_invalid_state : log_msg :=
  {| msg_level := LOG_LEVEL_WRN;
     msg_fmt := "RET_INVALID_STATE - Cannot enter identify mode";
     msg_args := [] |}.

(** Events by which the stack hands over an attribute write or another
    device callback, and events by which it writes the identify time. *)
Definition is_zcl_request (e : app_event) : bool :=
  match e with
  | ZclRequest _ _ => true
  | _ => false
  end.

Definition is_identify_time_write (e : app_event) : bool :=
  match e with
  | IdentifyTimeWritten _ => true
  | _ => false
  end.

(** ** The drive during a run *)

(** The pin configuration and the output latches after an operation. *)
Definition dir_after (dir : gset Z) (e : hw_event) : gset Z :=
  match e with
  | EvCfgOutput pin => dir ∪ {[pin]}
  | _ => dir
  end.

Definition out_after (out : gset Z) (e : hw_event) : gset Z :=
  match e with
  | EvPinSet pin => out ∪ {[pin]}
  | EvPinClear pin => out ∖ {[pin]}
  | _ => out
  end.

(** The drive is enabled when the enable pin is an output and its latch is
    clear: [stepper_run] enables the motor by clearing the pin and disables
    it by setting the pin. *)
Definition drive_enabled (dir out : gset Z) : bool :=
  bool_decide (motor_enable ∈ dir) && negb (bool_decide (motor_enable ∈ out)).

(** Whether the drive is enabled after one of the operations of a trace
    that starts with the configuration [dir] and the latches [out]. *)
Fixpoint energized_during (dir out : gset Z) (t : list hw_event) : bool :=
  match t with
  | [] => false
  | e :: t' =>
      drive_enabled (dir_after dir e) (out_after out e)
      || energized_during (dir_after dir e) (out_after out e) t'
  end.

(** The first three statements of [stepper_init], the last two, and the
    state between them when the function is called at reset. *)
Definition stepper_init_configure : M unit :=
  nrf_gpio_cfg_output motor_step;;
  nrf_gpio_cfg_output motor_dir;;
  nrf_gpio_cfg_output motor_enable.

Definition stepper_init_latch : M unit :=
  nrf_gpio_pin_set motor_dir;;
  nrf_gpio_pin_set motor_enable.

Definition init_configured : world :=
  final (stepper_init_configure (reset_world vendor_joined ∅)).

(** Number of times the step latch goes from clear to set in a trace that
    starts with the latch set ([high]) or clear. *)
Fixpoint rising_edges (high : bool) (t : list hw_event) : nat :=
  match t with
  | [] => O
  | EvPinSet pin :: t' =>
      if pin =? motor_step
      then ((if high then 0 else 1) + rising_edges true t')%nat
      else rising_edges high t'
  | EvPinClear pin :: t' =>
      if pin =? motor_step then rising_edges false t' else rising_edges high t'
  | _ :: t' => rising_edges high t'
  end.

(** * Properties *)

(** ** Reasoning about runs *)

Lemma upd_hw_upd_hw o1 o2 e1 e2 w :
  upd_hw o2 e2 (upd_hw o1 e1 w) = upd_hw o2 (e1 ++ e2) w.
Proof. unfold upd_hw; simpl. by rewrite app_assoc. Qed.

Lemma pin_set_run pin w :
  nrf_gpio_pin_set pin w = Done tt (upd_hw (gpio_out w ∪ {[pin]}) [EvPinSet pin] w).
Proof. reflexivity. Qed.

Lemma pin_clear_run pin w :
  nrf_gpio_pin_clear pin w = Done tt (upd_hw (gpio_out w ∖ {[pin]}) [EvPinClear pin] w).
Proof. reflexivity. Qed.

Lemma usleep_run us w :
  k_usleep us w = Done tt (upd_hw (gpio_out w) [EvUSleep us] w).
Proof. reflexivity. Qed.

Lemma bind_done {A B} (m : M A) (k : A -> M B) w a w' :
  m w = Done a w' -> bind m k w = k a w'.
Proof. unfold bind. by intros ->. Qed.

(** Runs the first action of a sequence by the equation given for it. *)
Tactic Notation "step" uconstr(H) := rewrite (bind_done _ _ _ _ _ H).

Lemma motor_pins_distinct :
  motor_step ≠ motor_dir ∧ motor_step ≠ motor_enable ∧ motor_dir ≠ motor_enable.
Proof. repeat split; intros [=]. Qed.

Lemma pulse_body_run i w :
  pulse_body i w = Done tt (upd_hw (gpio_out w ∖ {[motor_step]}) pulse w).
Proof.
  unfold pulse_body.
  step (pin_set_run _ _).
  step (usleep_run _ _).
  step (pin_clear_run _ _).
  rewrite usleep_run, !upd_hw_upd_hw. simpl.
  f_equal. f_equal. set_solver.
Qed.

Lemma pulses_run n i w :
  for_count (S n) i pulse_body w
  = Done tt (upd_hw (gpio_out w ∖ {[motor_step]}) (concat (replicate (S n) pulse)) w).
Proof.
  revert i w. induction n as [|n IH]; intros i w.
  - simpl for_count. step (pulse_body_run _ _).
    reflexivity.
  - change (for_count (S (S n)) i pulse_body)
      with (bind (pulse_body i) (fun _ => for_count (S n) (i + 1) pulse_body)).
    step (pulse_body_run _ _); rewrite IH, upd_hw_upd_hw.
    simpl gpio_out. f_equal. f_equal. set_solver.
Qed.

Lemma stepper_run_run dir w :
  stepper_run dir w = Done tt (upd_hw (run_out dir (gpio_out w)) (run_trace dir) w).
Proof.
  unfold stepper_run.
  step (pin_clear_run _ _).
  assert (Hd : (if dir then nrf_gpio_pin_set motor_dir else nrf_gpio_pin_clear motor_dir)
                 (upd_hw (gpio_out w ∖ {[motor_enable]}) [EvPinClear motor_enable] w)
               = Done tt (upd_hw (if dir then (gpio_out w ∖ {[motor_enable]}) ∪ {[motor_dir]}
                                  else (gpio_out w ∖ {[motor_enable]}) ∖ {[motor_dir]})
                            [EvPinClear motor_enable;
                             if dir then EvPinSet motor_dir else EvPinClear motor_dir] w)).
  { destruct dir; [rewrite pin_set_run | rewrite pin_clear_run];
      by rewrite upd_hw_upd_hw. }
  step Hd.
  change (for_lt 0 steps_to_endstop _) with (for_count 100 0 pulse_body).
  step (pulses_run 99 0 _).
  rewrite pin_set_run, !upd_hw_upd_hw. reflexivity.
Qed.

(** ** The stepper sequencer *)

Lemma actuations_run_trace (dir : bool) : actuations (run_trace dir) = 1%nat.
Proof. destruct dir; reflexivity. Qed.

Lemma actuations_app (t u : list hw_event) :
  actuations (t ++ u) = (actuations t + actuations u)%nat.
Proof. unfold actuations. by rewrite List.filter_app, length_app. Qed.

(** C3. For either direction and from any pin state, [stepper_run] returns
    after issuing, in order: the clearing of the motor-enable pin (which
    enables the drive), the direction pin set or cleared as the argument
    says, exactly 100 times the four steps "step pin set, 800 us delay,
    step pin cleared, 800 us delay", and the setting of the motor-enable pin
    (which disables the drive).  On return the enable latch is set, the step
    latch is clear and the direction latch holds the argument. *)
Theorem stepper_run_sequence (dir : bool) (w : world) :
  ∃ w', stepper_run dir w = Done tt w'
    ∧ hw_trace w' = hw_trace w
        ++ [EvPinClear motor_enable;
            if dir then EvPinSet motor_dir else EvPinClear motor_dir]
        ++ concat (replicate 100
             [EvPinSet motor_step; EvUSleep 800; EvPinClear motor_step; EvUSleep 800])
        ++ [EvPinSet motor_enable]
    ∧ motor_enable ∈ gpio_out w'
    ∧ (motor_step ∉ gpio_out w')
    ∧ (motor_dir ∈ gpio_out w' ↔ dir = true).
Proof.
  destruct motor_pins_distinct as (Hsd & Hse & Hde).
  eexists. split; [apply stepper_run_run|].
  split; [reflexivity|].
  unfold upd_hw, run_out; simpl gpio_out.
  destruct dir; set_solver.
Qed.

Lemma stepper_init_run (w : world) :
  stepper_init w
  = Done tt
      {| dev_ctx := dev_ctx w; blink_status := blink_status w;
         gpio_dir := gpio_dir w ∪ {[motor_step]} ∪ {[motor_dir]} ∪ {[motor_enable]};
         gpio_out := gpio_out w ∪ {[motor_dir]} ∪ {[motor_enable]};
         leds := leds w;
         hw_trace := hw_trace w
           ++ [EvCfgOutput motor_step; EvCfgOutput motor_dir;
               EvCfgOutput motor_enable; EvPinSet motor_dir; EvPinSet motor_enable];
         callbacks := callbacks w; alarms := alarms w; bufs := bufs w;
         vendor := vendor w; vendor_calls := vendor_calls w; console := console w |}.
Proof.
  unfold stepper_init, bind, nrf_gpio_cfg_output, nrf_gpio_pin_set, modify, set_gpio.
  simpl. by rewrite <- !app_assoc.
Qed.

(** C9, as the code has it. After [stepper_init] returns, the step,
    direction and enable pins are configured as outputs, the direction latch
    is set and the enable latch is set (drive disabled); the function issues
    five operations, three pin configurations and two latch settings, and
    never clears the enable pin.  It does not keep the drive off all the
    way: the enable pin becomes an output before its latch is set, so the
    drive is enabled at some point of the call exactly when the enable latch
    was clear on entry. *)
Theorem stepper_init_disabled (w : world) :
  ∃ w', stepper_init w = Done tt w'
    ∧ motor_step ∈ gpio_dir w' ∧ motor_dir ∈ gpio_dir w' ∧ motor_enable ∈ gpio_dir w'
    ∧ motor_dir ∈ gpio_out w'
    ∧ motor_enable ∈ gpio_out w'
    ∧ hw_trace w' = hw_trace w
        ++ [EvCfgOutput motor_step; EvCfgOutput motor_dir; EvCfgOutput motor_enable;
            EvPinSet motor_dir; EvPinSet motor_enable]
    ∧ actuations (hw_trace w') = actuations (hw_trace w)
    ∧ drive_enabled (gpio_dir w') (gpio_out w') = false
    ∧ energized_during (gpio_dir w) (gpio_out w) (new_events w w')
        = negb (bool_decide (motor_enable ∈ gpio_out w)).
Proof.
  destruct motor_pins_distinct as (Hsd & Hse & Hde).
  rewrite stepper_init_run. eexists. split; [reflexivity|].
  unfold new_events, drive_enabled. cbn [gpio_dir gpio_out hw_trace].
  split; [set_solver|]. split; [set_solver|]. split; [set_solver|].
  split; [set_solver|]. split; [set_solver|]. split; [reflexivity|].
  split.
  { rewrite actuations_app.
    assert (actuations
              [EvCfgOutput motor_step; EvCfgOutput motor_dir;
               EvCfgOutput motor_enable; EvPinSet motor_dir;
               EvPinSet motor_enable] = O) as -> by reflexivity.
    lia. }
  split.
  { rewrite (bool_decide_eq_true_2 (motor_enable ∈ _ ∪ {[motor_enable]}))
      by set_solver.
    rewrite (bool_decide_eq_true_2
               (motor_enable ∈ gpio_out w ∪ {[motor_dir]} ∪ {[motor_enable]}))
      by set_solver.
    reflexivity. }
  rewrite drop_app_length.
  cbn [energized_during dir_after out_after]. unfold drive_enabled.
  destruct (decide (motor_enable ∈ gpio_out w)) as [Hin|Hnin];
    repeat match goal with
    | |- context [bool_decide (motor_enable ∈ ?X)] =>
        first [ rewrite (bool_decide_eq_true_2 (motor_enable ∈ X)) by set_solver
              | rewrite (bool_decide_eq_false_2 (motor_enable ∈ X)) by set_solver
              | destruct (bool_decide (motor_enable ∈ X)) ]
    end; reflexivity.
Qed.

(** Called at reset, [stepper_init] enables the drive on its way: after its
    first three statements the enable pin is an output and its latch is
    still clear. *)
Lemma stepper_init_energizes_at_reset :
  stepper_init (reset_world vendor_joined ∅) = stepper_init_latch init_configured
  ∧ motor_enable ∈ gpio_dir init_configured
  ∧ (motor_enable ∉ gpio_out init_configured)
  ∧ drive_enabled (gpio_dir init_configured) (gpio_out init_configured) = true
  ∧ energized_during ∅ ∅
      (hw_trace (final (stepper_init (reset_world vendor_joined ∅)))) = true.
Proof.
  split; [reflexivity|].
  split; [apply (bool_decide_unpack _); by vm_compute|].
  split; [apply (proj1 (bool_decide_eq_false _)); by vm_compute|].
  split; by vm_compute.
Qed.

(** ** Identify: start and toggle *)

(** C8. When the device has not joined a network, [start_identifying]
    returns normally; it calls no stack function, schedules nothing and
    changes no attribute, pin or LED: the state it leaves is the state it
    found with one warning added to the console. *)
Theorem start_identifying_not_joined (bufid : Z) (w : world) :
  ZB_JOINED (vendor w) = false →
  start_identifying bufid w = Done tt (add_console msg_not_joined w).
Proof.
  intros Hj. unfold start_identifying, bind, gets. by rewrite Hj.
Qed.

Lemma start_identifying_not_joined_witness :
  start_identifying 0 (reset_world vendor_example ∅)
  = Done tt (add_console msg_not_joined (reset_world vendor_example ∅)).
Proof. apply start_identifying_not_joined. reflexivity. Defined.

(** C7. While the device is joined, [start_identifying] toggles: with the
    identify-time attribute at its default value it asks the stack to enter
    identify mode on the coop endpoint (and does not cancel); with any other
    identify time it asks the stack to cancel identify mode (and does not
    ask to enter it), and returns. *)
Theorem start_identifying_toggles (bufid : Z) (w : world) :
  ZB_JOINED (vendor w) = true →
  (identify_time (identify_attr (dev_ctx w))
     = ZB_ZCL_IDENTIFY_IDENTIFY_TIME_DEFAULT_VALUE →
   vendor_calls (final (start_identifying bufid w))
     = vendor_calls w ++ [Call_zb_bdb_finding_binding_target CHICKEN_COOP_ENDPOINT])
  ∧ (identify_time (identify_attr (dev_ctx w))
       ≠ ZB_ZCL_IDENTIFY_IDENTIFY_TIME_DEFAULT_VALUE →
     ∃ w', start_identifying bufid w = Done tt w'
       ∧ vendor_calls w'
           = vendor_calls w ++ [Call_zb_bdb_finding_binding_target_cancel]).
Proof.
  intros Hj. split; intros Ht.
  - unfold start_identifying, bind, gets. rewrite Hj, Ht. simpl.
    destruct (finding_binding_target_ret (vendor w)) as [| | |c]; reflexivity.
  - unfold start_identifying, bind, gets. rewrite Hj.
    apply Z.eqb_neq in Ht. rewrite Ht. eexists. split; reflexivity.
Qed.

Lemma start_identifying_toggles_witness :
  vendor_calls (final (start_identifying 0 (reset_world vendor_joined ∅)))
    = [Call_zb_bdb_finding_binding_target 10]
  ∧ ∃ w', start_identifying 0 (with_identify_time 180 (reset_world vendor_joined ∅))
            = Done tt w'
      ∧ vendor_calls w' = [Call_zb_bdb_finding_binding_target_cancel].
Proof.
  split.
  - apply (start_identifying_toggles 0 (reset_world vendor_joined ∅)); reflexivity.
  - apply (start_identifying_toggles 0
             (with_identify_time 180 (reset_world vendor_joined ∅)));
      [reflexivity | discriminate].
Defined.

(** ** The button classifier *)

(** C5. On a change of the identify button: a release asks the
    factory-reset helper whether a reset was done during the hold; if it
    was, nothing is scheduled; if it was not, exactly one call of
    [start_identifying] is queued; a press asks nothing and schedules
    nothing.  In every case the function returns and the alarms are left
    alone. *)
Theorem button_changed_classifies (button_state has_changed : Z) (w : world) :
  Z.land IDENTIFY_MODE_BUTTON has_changed ≠ 0 →
  ∃ w', button_changed button_state has_changed w = Done tt w'
    ∧ alarms w' = alarms w
    ∧ (Z.land IDENTIFY_MODE_BUTTON button_state = 0 →
         Call_was_factory_reset_done ∈ drop (length (vendor_calls w)) (vendor_calls w')
         ∧ (factory_reset_done (vendor w) = true → callbacks w' = callbacks w)
         ∧ (factory_reset_done (vendor w) = false →
              callbacks w' = callbacks w ++ [(CB_start_identifying, 0)]))
    ∧ (Z.land IDENTIFY_MODE_BUTTON button_state ≠ 0 →
         callbacks w' = callbacks w
         ∧ Call_was_factory_reset_done ∉ drop (length (vendor_calls w)) (vendor_calls w')).
Proof.
  intros Hc. apply Z.eqb_neq in Hc.
  unfold button_changed, bind. rewrite Hc. simpl negb. cbv iota.
  destruct (Z.land IDENTIFY_MODE_BUTTON button_state =? 0) eqn:Hs; simpl negb; cbv iota.
  - apply Z.eqb_eq in Hs.
    destruct (factory_reset_done (vendor w)) eqn:Hd;
      unfold was_factory_reset_done, bind, gets; simpl; rewrite Hd;
      (eexists; split; [reflexivity|]); simpl;
      (split; [reflexivity|]); (split; [|by intros []]); intros _;
      rewrite <- app_assoc, drop_app_length;
      (split; [set_solver|]); split; intros; congruence.
  - apply Z.eqb_neq in Hs.
    eexists; split; [reflexivity|]. simpl.
    split; [reflexivity|]. split; [by intros|]. intros _.
    split; [reflexivity|]. rewrite drop_app_length. set_solver.
Qed.

Lemma button_changed_classifies_witness :
  ∃ w', button_changed 0 8 (reset_world vendor_joined ∅) = Done tt w'
    ∧ callbacks w' = [(CB_start_identifying, 0)].
Proof.
  destruct (button_changed_classifies 0 8 (reset_world vendor_joined ∅))
    as (w' & Hrun & _ & Hrel & _); [discriminate|].
  exists w'. split; [exact Hrun|].
  destruct Hrel as (_ & _ & Hq); [reflexivity|].
  apply Hq. reflexivity.
Defined.

(** ** The identify blinker *)

Lemma odd_to_int (x : Z) : Z.odd (to_int x) = Z.odd x.
Proof.
  unfold to_int.
  rewrite (Z.mod_eq (x + 2147483648) 4294967296) by discriminate.
  replace (x + 2147483648 - 4294967296 * ((x + 2147483648) / 4294967296) - 2147483648)
    with (x + 2 * (- (2147483648 * ((x + 2147483648) / 4294967296)))) by lia.
  apply Z.odd_add_mul_2.
Qed.

Lemma rem_2_eqb (b : Z) : (Z.rem b 2 =? 0) = negb (Z.odd b).
Proof. by rewrite Zodd_rem, negb_involutive. Qed.

Lemma toggle_identify_led_run (bufid : Z) (w : world) :
  let b := to_int (blink_status w + 1) in
  toggle_identify_led bufid w
  = Done tt (set_alarms (alarms w ++ [blink_alarm bufid])
              (set_leds (if Z.rem b 2 =? 0 then leds w ∖ {[IDENTIFY_LED]}
                         else leds w ∪ {[IDENTIFY_LED]})
                 (set_blink_status b w))).
Proof. reflexivity. Qed.

Lemma toggle_lit (bufid : Z) (w : world) :
  lit (final (toggle_identify_led bufid w)) = Z.odd (blink_status w + 1).
Proof.
  rewrite toggle_identify_led_run. simpl. unfold lit. simpl.
  rewrite rem_2_eqb, odd_to_int.
  destruct (Z.odd (blink_status w + 1)); simpl.
  - apply bool_decide_eq_true. set_solver.
  - apply bool_decide_eq_false. set_solver.
Qed.

Lemma toggle_blink_status (bufid : Z) (w : world) :
  blink_status (final (toggle_identify_led bufid w)) = to_int (blink_status w + 1).
Proof. reflexivity. Qed.

Lemma blinking_run (n : nat) (bufid : Z) (w : world) :
  alarms w = [blink_alarm bufid] →
  ∃ w', repeat_m n zb_sched_alarm w = Done tt w'
    ∧ alarms w' = [blink_alarm bufid]
    ∧ Z.odd (blink_status w') = Z.odd (blink_status w + Z.of_nat n)
    ∧ (n ≠ O → lit w' = Z.odd (blink_status w')).
Proof.
  revert w. induction n as [|n IH]; intros w Ha.
  - exists w. repeat split; [done| by rewrite Z.add_0_r | done].
  - simpl repeat_m.
    assert (Hstep : zb_sched_alarm w
                    = toggle_identify_led bufid (set_alarms [] w)).
    { unfold zb_sched_alarm, bind, gets. rewrite Ha. reflexivity. }
    pose proof (toggle_identify_led_run bufid (set_alarms [] w)) as Ht.
    simpl in Ht. rewrite <- Hstep in Ht.
    step Ht.
    match type of Ht with _ = Done tt ?x => set (w1 := x) in * end.
    destruct (IH w1 eq_refl) as (w' & Hrun & Hal & Hodd & Hlit).
    exists w'. split; [exact Hrun|]. split; [exact Hal|].
    assert (Hodd' : Z.odd (blink_status w') = Z.odd (blink_status w + Z.of_nat (S n))).
    { rewrite Hodd. subst w1. simpl blink_status.
      rewrite !Z.odd_add, odd_to_int, !Z.odd_add, Nat2Z.inj_succ, Z.odd_succ.
      rewrite <- Z.negb_odd. simpl (Z.odd 1).
      destruct (Z.odd (blink_status w)), (Z.odd (Z.of_nat n)); reflexivity. }
    split; [exact Hodd'|]. intros _.
    destruct n as [|n'].
    + simpl in Hrun. injection Hrun as <-.
      change w1 with (final (Done tt w1)). rewrite <- Ht, Hstep, toggle_lit.
      simpl blink_status. by rewrite odd_to_int.
    + apply Hlit. discriminate.
Qed.

(** C6. A firing of the blink timer flips the parity of the blink counter
    (the phase), leaves the identify LED lit exactly when the new counter is
    odd, and schedules itself again with the 100 ms delay; so the next
    firing leaves the LED in the opposite state, and once started the
    firings go on: after any number of them the timer is pending again. *)
Theorem toggle_identify_led_blinks (bufid : Z) (w : world) :
  ∃ w', toggle_identify_led bufid w = Done tt w'
    ∧ Z.odd (blink_status w') = negb (Z.odd (blink_status w))
    ∧ lit w' = Z.odd (blink_status w')
    ∧ alarms w' = alarms w
        ++ [{| al_func := CB_toggle_identify_led; al_param := bufid;
               al_time := ZB_MILLISECONDS_TO_BEACON_INTERVAL 100 |}]
    ∧ lit (final (toggle_identify_led bufid w')) = negb (lit w')
    ∧ (alarms w = [] →
       ∀ n : nat, ∃ w'', repeat_m n zb_sched_alarm w' = Done tt w''
         ∧ alarms w''
             = [{| al_func := CB_toggle_identify_led; al_param := bufid;
                   al_time := ZB_MILLISECONDS_TO_BEACON_INTERVAL 100 |}]
         ∧ lit w'' = Z.odd (blink_status w' + Z.of_nat n)).
Proof.
  eexists. split; [apply toggle_identify_led_run|].
  set (w' := set_alarms _ _).
  assert (Hb : blink_status w' = to_int (blink_status w + 1)) by reflexivity.
  assert (Hl : lit w' = Z.odd (blink_status w')).
  { change w' with (final (toggle_identify_led bufid w)).
    by rewrite toggle_lit, toggle_blink_status, odd_to_int. }
  assert (Hflip : ∀ x, Z.odd (x + 1) = negb (Z.odd x)).
  { intros x. by rewrite Z.add_1_r, Z.odd_succ, <- Z.negb_odd. }
  split; [by rewrite Hb, odd_to_int, Hflip|].
  split; [exact Hl|]. split; [reflexivity|].
  split; [by rewrite toggle_lit, Hl, Hflip|].
  intros Ha n.
  destruct (blinking_run n bufid w') as (w'' & Hrun & Hal & Hodd & Hlit).
  { subst w'. simpl. by rewrite Ha. }
  exists w''. split; [exact Hrun|]. split; [exact Hal|].
  destruct n as [|n].
  - simpl in Hrun. injection Hrun as <-. by rewrite Hl, Z.add_0_r.
  - rewrite Hlit by discriminate. exact Hodd.
Qed.

Lemma toggle_identify_led_blinks_witness :
  ∃ w1 w5, toggle_identify_led 1 (reset_world vendor_joined ∅) = Done tt w1
    ∧ repeat_m 4 zb_sched_alarm w1 = Done tt w5
    ∧ alarms w5 = [blink_alarm 1]
    ∧ lit w5 = Z.odd (blink_status w1 + 4).
Proof.
  destruct (toggle_identify_led_blinks 1 (reset_world vendor_joined ∅))
    as (w1 & Hrun & _ & _ & _ & _ & Hmore).
  destruct (Hmore eq_refl 4%nat) as (w5 & Hrun5 & Hal & Hlit).
  exists w1, w5. repeat split; assumption.
Defined.

Lemma cancel_first_pending (l : list zb_alarm) :
  length (List.filter is_blink_alarm
            (cancel_first CB_toggle_identify_led ZB_ALARM_ANY_PARAM l))
  = pred (length (List.filter is_blink_alarm l)).
Proof.
  induction l as [|a l IH]; [reflexivity|].
  simpl. unfold alarm_matches. rewrite andb_true_r.
  fold (is_blink_alarm a).
  destruct (is_blink_alarm a) eqn:Ha; [reflexivity|].
  simpl. by rewrite Ha.
Qed.

Lemma cancel_first_none (l : list zb_alarm) :
  length (List.filter is_blink_alarm l) = O →
  cancel_first CB_toggle_identify_led ZB_ALARM_ANY_PARAM l = l.
Proof.
  induction l as [|a l IH]; [reflexivity|].
  simpl. unfold alarm_matches. rewrite andb_true_r.
  fold (is_blink_alarm a).
  destruct (is_blink_alarm a); [discriminate|].
  intros H. by rewrite IH.
Qed.

(** C4, as the code has it. [identify_cb] called with buffer 0 removes the
    first pending alarm of the blink timer and switches the identify LED
    off; it leaves the blink counter, that is the phase, as it was.  When no
    blink alarm is pending and the LED is off, it changes nothing at all. *)
Theorem identify_cb_cancel (w : world) :
  ∃ w', identify_cb 0 w = Done tt w'
    ∧ alarms w' = cancel_first CB_toggle_identify_led ZB_ALARM_ANY_PARAM (alarms w)
    ∧ blink_pending w' = pred (blink_pending w)
    ∧ lit w' = false
    ∧ blink_status w' = blink_status w
    ∧ (blink_pending w = O → lit w = false → w' = w).
Proof.
  eexists. split; [reflexivity|]. simpl.
  split; [reflexivity|].
  split; [apply cancel_first_pending|].
  split; [apply bool_decide_eq_false; set_solver|].
  split; [reflexivity|].
  intros Hp Hl. unfold blink_pending in Hp. rewrite (cancel_first_none _ Hp).
  apply bool_decide_eq_false in Hl.
  destruct w; unfold set_leds, set_alarms; simpl in *. f_equal. set_solver.
Qed.

Lemma identify_cb_cancel_witness :
  identify_cb 0 (reset_world vendor_joined ∅)
  = Done tt (reset_world vendor_joined ∅).
Proof.
  destruct (identify_cb_cancel (reset_world vendor_joined ∅))
    as (w' & Hrun & _ & _ & _ & _ & Hsame).
  rewrite Hrun. f_equal. apply Hsame; reflexivity.
Defined.

(** The cancel does not reset the phase: after one firing and a cancel the
    counter is 1, not its initial 0, and the first firing of the next
    session switches the LED off where the very first firing switched it
    on. *)
Lemma identify_cancel_keeps_phase :
  alarms after_cancel = []
  ∧ lit after_cancel = false
  ∧ blink_status (reset_world vendor_joined ∅) = 0
  ∧ blink_status after_cancel = 1
  ∧ blink_status after_cancel ≠ blink_status (reset_world vendor_joined ∅)
  ∧ lit after_first_firing = true
  ∧ lit second_session_first_firing = false
  ∧ lit second_session_first_firing ≠ lit after_first_firing.
Proof. vm_compute. repeat split; discriminate. Qed.

(** ** The attribute bridge *)

Lemma get_param_run (bufid : Z) (p : zb_zcl_device_callback_param_t) (w : world) :
  bufs w !! bufid = Some p → ZB_BUF_GET_PARAM bufid w = Done p w.
Proof. unfold ZB_BUF_GET_PARAM. by intros ->. Qed.

Lemma set_status_run (bufid : Z) (s : zb_ret_t) (w : world) :
  set_status bufid s w = Done tt (set_bufs (alter (with_status s) bufid (bufs w)) w).
Proof. reflexivity. Qed.

Lemma LOG_INF_run (fmt : string) (args : list log_arg) (w : world) :
  LOG_INF fmt args w = Done tt (add_console (info fmt args) w).
Proof. reflexivity. Qed.

Lemma on_off_set_value_run (on : Z) (w : world) :
  on_off_set_value on w
  = Done tt
      (upd_hw (run_out (negb (on =? 0)) (gpio_out w)) (run_trace (negb (on =? 0)))
         (set_dev_ctx (set_on_off (to_uint8 on) (dev_ctx w))
            (add_console (info "Set ON/OFF value: %i" [ArgInt on]) w))).
Proof.
  unfold on_off_set_value.
  step (LOG_INF_run _ _ _).
  unfold ZB_ZCL_SET_ATTRIBUTE_on_off, modify. unfold bind at 1.
  destruct (on =? 0); cbn [negb]; by rewrite stepper_run_run.
Qed.

Lemma to_uint8_idem (x : Z) : to_uint8 (to_uint8 x) = to_uint8 x.
Proof. unfold to_uint8. apply Z.mod_mod. discriminate. Qed.

Lemma get_param_altered (bufid : Z) (p : zb_zcl_device_callback_param_t)
  (s : zb_ret_t) (m : gmap Z zb_zcl_device_callback_param_t) (y : world) :
  m !! bufid = Some p →
  bufs y = alter (with_status s) bufid m →
  ZB_BUF_GET_PARAM bufid y = Done (with_status s p) y.
Proof.
  intros Hp Hy. apply get_param_run. by rewrite Hy, lookup_alter_eq, Hp.
Qed.

(** What [zcl_device_cb] does with an attribute write, case by case. *)
Lemma zcl_device_cb_write_run (bufid : Z) (p : zb_zcl_device_callback_param_t)
  (w : world) :
  bufs w !! bufid = Some p →
  device_cb_id p = ZB_ZCL_SET_ATTR_VALUE_CB_ID →
  let c := to_uint8 (cluster_id (set_attr_value_param p)) in
  let a := to_uint8 (attr_id (set_attr_value_param p)) in
  let v := to_uint8 (data8 (set_attr_value_param p)) in
  ∃ w', zcl_device_cb bufid w = Done tt w'
    ∧ reply_status bufid w'
        = Some (if c =? ZB_ZCL_CLUSTER_ID_ON_OFF then RET_OK else RET_NOT_IMPLEMENTED)
    ∧ dev_ctx w'
        = (if (c =? ZB_ZCL_CLUSTER_ID_ON_OFF) && (a =? ZB_ZCL_ATTR_ON_OFF_ON_OFF_ID)
           then set_on_off v (dev_ctx w) else dev_ctx w)
    ∧ hw_trace w'
        = hw_trace w
          ++ (if (c =? ZB_ZCL_CLUSTER_ID_ON_OFF) && (a =? ZB_ZCL_ATTR_ON_OFF_ON_OFF_ID)
              then run_trace (negb (v =? 0)) else [])
    ∧ gpio_dir w' = gpio_dir w.
Proof.
  intros Hp Hid c a v.
  unfold zcl_device_cb.
  step (get_param_run _ _ _ Hp).
  step (LOG_INF_run _ _ _).
  step (set_status_run _ _ _).
  rewrite Hid. fold c a v.
  destruct (c =? ZB_ZCL_CLUSTER_ID_ON_OFF) eqn:Hc.
  - rewrite andb_true_l.
    destruct (a =? ZB_ZCL_ATTR_ON_OFF_ON_OFF_ID) eqn:Ha.
    + match goal with |- context [bind (bind ?m ?k) _ ?x] =>
        assert (Hin : bind m k x = Done tt
          (upd_hw (run_out (negb (v =? 0)) (gpio_out w)) (run_trace (negb (v =? 0)))
             (set_dev_ctx (set_on_off (to_uint8 v) (dev_ctx w))
               (add_console (info "Set ON/OFF value: %i" [ArgInt v])
                 (add_console (info "on/off attribute setting to %hd" [ArgInt v]) x)))))
      end.
      { step (LOG_INF_run _ _ _).
        by rewrite on_off_set_value_run. }
      step Hin.
      match goal with |- context [bind (ZB_BUF_GET_PARAM bufid) _ ?y] =>
        step (get_param_altered bufid p RET_OK (bufs w) y Hp eq_refl)
      end.
      eexists. split; [apply LOG_INF_run|].
      unfold reply_status. simpl. rewrite lookup_alter_eq, Hp. simpl.
      subst v. by rewrite to_uint8_idem.
    + match goal with |- context [bind (bind ?m ?k) _ ?x] =>
        assert (Hin : bind m k x = Done tt
                 (add_console (info "on/off attribute setting to %hd" [ArgInt v]) x))
      end.
      { by step (LOG_INF_run _ _ _). }
      step Hin.
      match goal with |- context [bind (ZB_BUF_GET_PARAM bufid) _ ?y] =>
        step (get_param_altered bufid p RET_OK (bufs w) y Hp eq_refl)
      end.
      eexists. split; [apply LOG_INF_run|].
      unfold reply_status. simpl. rewrite lookup_alter_eq, Hp. simpl.
      by rewrite app_nil_r.
  - rewrite andb_false_l.
    match goal with |- context [bind (bind ?m ?k) _ ?x] =>
      assert (Hin : bind m k x = Done tt
        (set_bufs (alter (with_status RET_NOT_IMPLEMENTED) bufid (bufs x))
           (add_console (info "Unhandled cluster attribute id: %d" [ArgInt c]) x)))
    end.
    { by step (LOG_INF_run _ _ _). }
    step Hin.
    assert (Hp' : alter (with_status RET_OK) bufid (bufs w) !! bufid
                  = Some (with_status RET_OK p)).
    { by rewrite lookup_alter_eq, Hp. }
    match goal with |- context [bind (ZB_BUF_GET_PARAM bufid) _ ?y] =>
      step (get_param_altered bufid _ RET_NOT_IMPLEMENTED _ y Hp' eq_refl)
    end.
    eexists. split; [apply LOG_INF_run|].
    unfold reply_status. simpl. rewrite !lookup_alter_eq, Hp. simpl.
    by rewrite app_nil_r.
Qed.

(** C1, as the code has it. Every write to the on/off attribute that
    reaches [zcl_device_cb] stores the written byte and runs the actuation
    sequence exactly once, whether or not the stored value changes: towards
    "extend" ([stepper_run true]) for a non-zero value, towards "retract"
    ([stepper_run false]) for zero.  The answer is [RET_OK]. *)
Theorem on_off_write_actuates (bufid : Z) (p : zb_zcl_device_callback_param_t)
  (w : world) :
  bufs w !! bufid = Some p →
  device_cb_id p = ZB_ZCL_SET_ATTR_VALUE_CB_ID →
  cluster_id (set_attr_value_param p) = ZB_ZCL_CLUSTER_ID_ON_OFF →
  attr_id (set_attr_value_param p) = ZB_ZCL_ATTR_ON_OFF_ON_OFF_ID →
  let v := to_uint8 (data8 (set_attr_value_param p)) in
  ∃ w', zcl_device_cb bufid w = Done tt w'
    ∧ on_off (on_off_attr (dev_ctx w')) = v
    ∧ hw_trace w' = hw_trace (final (stepper_run (negb (v =? 0)) w))
    ∧ actuations (hw_trace w') = S (actuations (hw_trace w))
    ∧ reply_status bufid w' = Some RET_OK.
Proof.
  intros Hp Hid Hc Ha v.
  destruct (zcl_device_cb_write_run bufid p w Hp Hid)
    as (w' & Hrun & Hst & Hctx & Htr & _).
  rewrite Hc in Hst, Hctx, Htr. rewrite Ha in Hctx, Htr.
  simpl in Hst, Hctx, Htr. fold v in Hctx, Htr.
  exists w'. split; [exact Hrun|].
  split; [by rewrite Hctx|].
  split; [by rewrite Htr, stepper_run_run|].
  split; [|exact Hst].
  rewrite Htr, actuations_app, actuations_run_trace. lia.
Qed.

Lemma on_off_write_actuates_witness :
  ∃ w', zcl_device_cb 1 started = Done tt w'
    ∧ on_off (on_off_attr (dev_ctx w')) = 1
    ∧ actuations (hw_trace w') = 1%nat.
Proof.
  destruct (on_off_write_actuates 1 (on_off_write 1) started)
    as (w' & Hrun & Hv & _ & Hn & _); try reflexivity.
  exists w'. split; [exact Hrun|]. split; [exact Hv|exact Hn].
Defined.

(** Writing "on" twice runs the motor twice: the second write finds the
    stored value already 1 (so did the first: start-up stores 1), leaves it
    1, and still appends a whole actuation sequence. *)
Lemma second_on_write_actuates_again :
  on_off (on_off_attr (dev_ctx started)) = 1
  ∧ on_off (on_off_attr (dev_ctx first_write)) = 1
  ∧ on_off (on_off_attr (dev_ctx second_write)) = 1
  ∧ actuations (hw_trace started) = 0%nat
  ∧ actuations (hw_trace first_write) = 1%nat
  ∧ actuations (hw_trace second_write) = 2%nat
  ∧ hw_trace second_write = hw_trace first_write ++ run_trace true
  ∧ hw_trace second_write ≠ hw_trace first_write.
Proof. vm_compute. repeat split; discriminate. Qed.

(** C2, as the code has it. An attribute write whose cluster identifier, as
    the bridge reads it, is not that of the on/off cluster is answered with
    [RET_NOT_IMPLEMENTED]; a write on the on/off cluster to an attribute whose
    identifier, as the bridge reads it, is not that of the on/off attribute
    is answered with [RET_OK].  Both leave the device context alone and
    drive no pin. *)
Theorem other_write_leaves_store (bufid : Z) (p : zb_zcl_device_callback_param_t)
  (w : world) :
  bufs w !! bufid = Some p →
  device_cb_id p = ZB_ZCL_SET_ATTR_VALUE_CB_ID →
  (to_uint8 (cluster_id (set_attr_value_param p)) ≠ ZB_ZCL_CLUSTER_ID_ON_OFF →
   ∃ w', zcl_device_cb bufid w = Done tt w'
     ∧ reply_status bufid w' = Some RET_NOT_IMPLEMENTED
     ∧ dev_ctx w' = dev_ctx w
     ∧ hw_trace w' = hw_trace w)
  ∧ (cluster_id (set_attr_value_param p) = ZB_ZCL_CLUSTER_ID_ON_OFF →
     to_uint8 (attr_id (set_attr_value_param p)) ≠ ZB_ZCL_ATTR_ON_OFF_ON_OFF_ID →
     ∃ w', zcl_device_cb bufid w = Done tt w'
       ∧ reply_status bufid w' = Some RET_OK
       ∧ dev_ctx w' = dev_ctx w
       ∧ hw_trace w' = hw_trace w).
Proof.
  intros Hp Hid.
  destruct (zcl_device_cb_write_run bufid p w Hp Hid)
    as (w' & Hrun & Hst & Hctx & Htr & _).
  split.
  - intros Hc. apply Z.eqb_neq in Hc. rewrite Hc in Hst, Hctx, Htr.
    simpl in Hctx, Htr. rewrite app_nil_r in Htr. by exists w'.
  - intros Hc Ha. apply Z.eqb_neq in Ha.
    rewrite Hc in Hst, Hctx, Htr. rewrite Ha in Hctx, Htr.
    simpl in Hst, Hctx, Htr. rewrite app_nil_r in Htr. by exists w'.
Qed.

Lemma other_write_leaves_store_witness :
  (∃ w', zcl_device_cb 1 (with_request (write_to 8 0 1)) = Done tt w'
     ∧ reply_status 1 w' = Some RET_NOT_IMPLEMENTED
     ∧ dev_ctx w' = dev_ctx (with_request (write_to 8 0 1))
     ∧ hw_trace w' = hw_trace (with_request (write_to 8 0 1)))
  ∧ (∃ w', zcl_device_cb 1 (with_request (write_to 6 16385 1)) = Done tt w'
       ∧ reply_status 1 w' = Some RET_OK
       ∧ dev_ctx w' = dev_ctx (with_request (write_to 6 16385 1))
       ∧ hw_trace w' = hw_trace (with_request (write_to 6 16385 1))).
Proof.
  split.
  - apply (other_write_leaves_store 1 (write_to 8 0 1)); [reflexivity..|discriminate].
  - apply (other_write_leaves_store 1 (write_to 6 16385 1));
      [reflexivity..|discriminate].
Defined.

(** A write to another attribute of the on/off cluster is not answered
    with "not implemented": the answer is [RET_OK]. *)
Lemma other_on_off_attribute_answered_ok :
  ∃ w', zcl_device_cb 1 (with_request (write_to 6 16385 1)) = Done tt w'
    ∧ reply_status 1 w' = Some RET_OK
    ∧ reply_status 1 w' ≠ Some RET_NOT_IMPLEMENTED.
Proof. eexists. split; [vm_compute; reflexivity|]. split; [reflexivity|discriminate]. Qed.

(** ** Start-up and the motor *)

Lemma start_identifying_hw (bufid : Z) (w : world) :
  hw_trace (final (start_identifying bufid w)) = hw_trace w.
Proof.
  unfold start_identifying, bind, gets.
  destruct (ZB_JOINED (vendor w)); [|reflexivity].
  destruct (_ =? _); [|reflexivity]. simpl.
  destruct (finding_binding_target_ret (vendor w)); reflexivity.
Qed.

Lemma button_changed_hw (button_state has_changed : Z) (w : world) :
  hw_trace (final (button_changed button_state has_changed w)) = hw_trace w.
Proof.
  unfold button_changed, bind.
  destruct (Z.land IDENTIFY_MODE_BUTTON has_changed =? 0); [reflexivity|].
  destruct (Z.land IDENTIFY_MODE_BUTTON button_state =? 0); [|reflexivity].
  simpl. destruct (factory_reset_done (vendor w)); reflexivity.
Qed.

Lemma identify_cb_hw (bufid : Z) (w : world) :
  hw_trace (final (identify_cb bufid w)) = hw_trace w.
Proof. unfold identify_cb. destruct (bufid =? 0); reflexivity. Qed.

Lemma zcl_device_cb_hw (bufid : Z) (w : world) :
  hw_trace (final (zcl_device_cb bufid w)) ≠ hw_trace w →
  ∃ p, bufs w !! bufid = Some p
    ∧ device_cb_id p = ZB_ZCL_SET_ATTR_VALUE_CB_ID
    ∧ to_uint8 (cluster_id (set_attr_value_param p)) = ZB_ZCL_CLUSTER_ID_ON_OFF
    ∧ to_uint8 (attr_id (set_attr_value_param p)) = ZB_ZCL_ATTR_ON_OFF_ON_OFF_ID.
Proof.
  intros Hne. destruct (bufs w !! bufid) as [p|] eqn:Hp.
  - exists p. split; [reflexivity|].
    destruct (device_cb_id p) as [|id] eqn:Hid.
    + split; [reflexivity|].
      destruct (zcl_device_cb_write_run bufid p w Hp Hid)
        as (w' & Hrun & _ & _ & Htr & _).
      rewrite Hrun in Hne. simpl in Hne. rewrite Htr in Hne.
      destruct (_ =? ZB_ZCL_CLUSTER_ID_ON_OFF) eqn:Hc;
        [|by rewrite app_nil_r in Hne].
      destruct (_ =? ZB_ZCL_ATTR_ON_OFF_ON_OFF_ID) eqn:Ha;
        [|by rewrite app_nil_r in Hne].
      by apply Z.eqb_eq in Hc, Ha.
    + exfalso. apply Hne. unfold zcl_device_cb.
      step (get_param_run _ _ _ Hp).
      step (LOG_INF_run _ _ _).
      step (set_status_run _ _ _).
      rewrite Hid.
      assert (Hp' : alter (with_status RET_OK) bufid (bufs w) !! bufid
                    = Some (with_status RET_OK p)).
      { by rewrite lookup_alter_eq, Hp. }
      destruct (zcl_scenes_handled (vendor w)) eqn:Hs.
      * match goal with |- context [bind (bind ?m ?k) _ ?x] =>
          assert (Hin : bind m k x
                        = Done tt (add_vendor_call (Call_zcl_scenes_cb bufid) x))
        end.
        { unfold zcl_scenes_cb, bind, gets. simpl. by rewrite Hs. }
        step Hin.
        match goal with |- context [bind (ZB_BUF_GET_PARAM bufid) _ ?y] =>
          step (get_param_run bufid _ y Hp')
        end.
        reflexivity.
      * match goal with |- context [bind (bind ?m ?k) _ ?x] =>
          assert (Hin : bind m k x
            = Done tt (set_bufs (alter (with_status RET_NOT_IMPLEMENTED) bufid (bufs x))
                         (add_vendor_call (Call_zcl_scenes_cb bufid) x)))
        end.
        { unfold zcl_scenes_cb, bind, gets. simpl. by rewrite Hs. }
        step Hin.
        match goal with |- context [bind (ZB_BUF_GET_PARAM bufid) _ ?y] =>
          step (get_param_altered bufid _ RET_NOT_IMPLEMENTED _ y Hp' eq_refl)
        end.
        reflexivity.
  - exfalso. apply Hne. unfold zcl_device_cb, bind, ZB_BUF_GET_PARAM.
    by rewrite Hp.
Qed.

(** C10. [bulb_clusters_attr_init] stores "on" in the on/off attribute and
    returns without any operation on a pin: no actuation sequence runs and
    the direction and latch of every pin are as before.  Among the entry
    points of the application only [zcl_device_cb] can add motor events, and
    it does so only for an attribute write that it reads as the on/off
    attribute of the on/off cluster. *)
Theorem bulb_clusters_attr_init_no_motion (zcl_ver : Z) (w : world) :
  (∃ w', bulb_clusters_attr_init zcl_ver w = Done tt w'
     ∧ on_off (on_off_attr (dev_ctx w')) = ZB_ZCL_ON_OFF_IS_ON
     ∧ hw_trace w' = hw_trace w
     ∧ actuations (hw_trace w') = actuations (hw_trace w)
     ∧ gpio_dir w' = gpio_dir w
     ∧ gpio_out w' = gpio_out w)
  ∧ (∀ bufid, hw_trace (final (start_identifying bufid w)) = hw_trace w)
  ∧ (∀ st ch, hw_trace (final (button_changed st ch w)) = hw_trace w)
  ∧ (∀ bufid, hw_trace (final (identify_cb bufid w)) = hw_trace w)
  ∧ (∀ bufid, hw_trace (final (toggle_identify_led bufid w)) = hw_trace w)
  ∧ (∀ bufid, hw_trace (final (zcl_device_cb bufid w)) ≠ hw_trace w →
       ∃ p, bufs w !! bufid = Some p
         ∧ device_cb_id p = ZB_ZCL_SET_ATTR_VALUE_CB_ID
         ∧ to_uint8 (cluster_id (set_attr_value_param p)) = ZB_ZCL_CLUSTER_ID_ON_OFF
         ∧ to_uint8 (attr_id (set_attr_value_param p))
             = ZB_ZCL_ATTR_ON_OFF_ON_OFF_ID).
Proof.
  split; [eexists; split; [reflexivity|]; by repeat split|].
  split; [intros; apply start_identifying_hw|].
  split; [intros; apply button_changed_hw|].
  split; [intros; apply identify_cb_hw|].
  split; [reflexivity|].
  intros bufid. apply zcl_device_cb_hw.
Qed.


Lemma bulb_clusters_attr_init_no_motion_witness :
  on_off (on_off_attr (dev_ctx (final (bulb_clusters_attr_init 8
            (reset_world vendor_joined ∅))))) = 1
  ∧ ∃ p, bufs started !! 1 = Some p
      ∧ device_cb_id p = ZB_ZCL_SET_ATTR_VALUE_CB_ID
      ∧ to_uint8 (cluster_id (set_attr_value_param p)) = ZB_ZCL_CLUSTER_ID_ON_OFF
      ∧ to_uint8 (attr_id (set_attr_value_param p)) = ZB_ZCL_ATTR_ON_OFF_ON_OFF_ID.
Proof.
  split.
  - destruct (bulb_clusters_attr_init_no_motion 8 (reset_world vendor_joined ∅))
      as ((w' & Hrun & Hon & _) & _).
    by rewrite Hrun.
  - destruct (bulb_clusters_attr_init_no_motion 8 started)
      as (_ & _ & _ & _ & _ & Honly).
    apply (Honly 1). intros H. apply (f_equal length) in H.
    vm_compute in H. discriminate.
Defined.

(** * Further properties of the code *)

(** ** The stepper on its own *)

Lemma new_events_upd_hw (out : gset Z) (evs : list hw_event) (w : world) :
  new_events w (upd_hw out evs w) = evs.
Proof. unfold new_events, upd_hw. simpl. apply drop_app_length. Qed.

(** X1. One call of [stepper_run], in either direction and from any state,
    sets the step pin 100 times and waits 200 times 800 microseconds, 160 ms
    in all.  The step latch rises 100 times when it was clear on entry, and
    99 times when it was already set on entry: the first setting is then no
    edge. *)
Theorem stepper_run_duration (dir : bool) (w : world) :
  let t := new_events w (final (stepper_run dir w)) in
  step_pulses t = 100%nat
  ∧ rising_edges (bool_decide (motor_step ∈ gpio_out w)) t
      = (if bool_decide (motor_step ∈ gpio_out w) then 99 else 100)%nat
  ∧ total_delay t = 2 * stepper_speed * steps_to_endstop
  ∧ total_delay t = 160000.
Proof.
  rewrite stepper_run_run. simpl final. rewrite new_events_upd_hw.
  destruct dir, (bool_decide (motor_step ∈ gpio_out w));
    vm_compute; repeat split; reflexivity.
Qed.

(** X2. Within a call of [stepper_run] every rising edge on the step pin
    comes while the drive is enabled, whether or not the drive was enabled
    before the call, and the drive is disabled at the end. *)
Theorem stepper_run_steps_enabled (dir enabled : bool) (w : world) :
  let t := new_events w (final (stepper_run dir w)) in
  steps_while_enabled enabled t = true
  ∧ foldl enabled_after enabled t = false.
Proof.
  rewrite stepper_run_run. simpl final. rewrite new_events_upd_hw.
  destruct dir, enabled; vm_compute; split; reflexivity.
Qed.

(** X3. [stepper_run] changes nothing but the latches of its three pins:
    the latch of every other pin, the configuration of all pins, the
    attributes, the LEDs, the scheduler queues, the buffers and the console
    are as before. *)
Theorem stepper_run_frame (dir : bool) (w : world) :
  let w' := final (stepper_run dir w) in
  (∀ pin, pin ≠ motor_step → pin ≠ motor_dir → pin ≠ motor_enable →
          (pin ∈ gpio_out w' ↔ pin ∈ gpio_out w))
  ∧ gpio_dir w' = gpio_dir w
  ∧ dev_ctx w' = dev_ctx w
  ∧ leds w' = leds w ∧ blink_status w' = blink_status w
  ∧ callbacks w' = callbacks w ∧ alarms w' = alarms w
  ∧ bufs w' = bufs w
  ∧ vendor_calls w' = vendor_calls w ∧ console w' = console w.
Proof.
  rewrite stepper_run_run. simpl.
  split; [|by repeat split].
  intros pin Hs Hd He. unfold run_out. destruct dir; set_solver.
Qed.

Lemma stepper_run_frame_witness :
  (DK_LED4 ∈ gpio_out (final (stepper_run true (reset_world vendor_joined ∅)))
   ↔ DK_LED4 ∈ gpio_out (reset_world vendor_joined ∅)).
Proof.
  apply (stepper_run_frame true (reset_world vendor_joined ∅)); discriminate.
Defined.



(** X5. [stepper_init] does not write the step latch: it leaves the motor
    at rest exactly when the step latch was clear before.  Calling it
    again changes no pin, and it changes no pin but the three of the
    motor. *)
Theorem stepper_init_idle (w : world) :
  let w' := final (stepper_init w) in
  (motor_idle w' ↔ motor_step ∉ gpio_out w)
  ∧ gpio_out (final (stepper_init w')) = gpio_out w'
  ∧ gpio_dir (final (stepper_init w')) = gpio_dir w'
  ∧ (∀ pin, pin ≠ motor_step → pin ≠ motor_dir → pin ≠ motor_enable →
       (pin ∈ gpio_out w' ↔ pin ∈ gpio_out w)
       ∧ (pin ∈ gpio_dir w' ↔ pin ∈ gpio_dir w)).
Proof.
  destruct motor_pins_distinct as (Hsd & Hse & Hde).
  cbv zeta. rewrite !stepper_init_run. unfold motor_idle. simpl.
  split; [|split; [|split]]; set_solver.
Qed.

Lemma stepper_init_idle_witness :
  motor_idle (final (stepper_init (reset_world vendor_joined ∅)))
  ∧ (DK_LED4 ∈ gpio_dir (final (stepper_init (reset_world vendor_joined ∅)))
     ↔ DK_LED4 ∈ gpio_dir (reset_world vendor_joined ∅)).
Proof.
  destruct (stepper_init_idle (reset_world vendor_joined ∅)) as (Hidle & _ & _ & Hpin).
  split.
  - apply Hidle. vm_compute. set_solver.
  - apply (Hpin DK_LED4); discriminate.
Defined.

(** ** What an action leaves alone *)

Section Keeps.

Context {T : Type} (f : world → T).

Lemma keeps_ret {A} (a : A) : keeps f (ret a).
Proof. by intros w. Qed.

Lemma keeps_gets {A} (g : world → A) : keeps f (gets g).
Proof. by intros w. Qed.

Lemma keeps_halt {A} (e : fault) : keeps f (halt (A := A) e).
Proof. by intros w. Qed.

Lemma keeps_modify (g : world → world) :
  (∀ w, f (g w) = f w) → keeps f (modify g).
Proof. intros Hg w. apply Hg. Qed.

Lemma keeps_bind {A B} (m : M A) (k : A → M B) :
  keeps f m → (∀ a, keeps f (k a)) → keeps f (bind m k).
Proof.
  intros Hm Hk w. specialize (Hm w). unfold bind.
  destruct (m w) as [a w1|e w1]; simpl in *; [|exact Hm].
  by rewrite Hk.
Qed.

Lemma keeps_get_param (bufid : Z) : keeps f (ZB_BUF_GET_PARAM bufid).
Proof. intros w. unfold ZB_BUF_GET_PARAM. by destruct (bufs w !! bufid). Qed.

Lemma keeps_for_count (n : nat) (i : Z) (body : Z → M unit) :
  (∀ j, keeps f (body j)) → keeps f (for_count n i body).
Proof.
  intros Hb. revert i. induction n as [|n IH]; intros i; simpl.
  - apply keeps_ret.
  - apply keeps_bind; [apply Hb | intros _; apply IH].
Qed.

Lemma keeps_stepper_run (dir : bool) :
  (∀ out evs w, f (upd_hw out evs w) = f w) → keeps f (stepper_run dir).
Proof. intros Hf w. rewrite stepper_run_run. apply Hf. Qed.

End Keeps.

(** Splits an action into its primitives, by the shape of the term, and
    closes the cases in which the observation is not written. *)
Ltac head_of t :=
  lazymatch t with
  | ?g _ => head_of g
  | _ => t
  end.

Ltac frame_step :=
  lazymatch goal with
  | |- keeps _ (bind _ _) => apply keeps_bind; [|intros ?]
  | |- keeps _ (ret _) => apply keeps_ret
  | |- keeps _ (gets _) => apply keeps_gets
  | |- keeps _ (halt _) => apply keeps_halt
  | |- keeps _ (modify _) => apply keeps_modify; intros ?; reflexivity
  | |- keeps _ (ZB_BUF_GET_PARAM _) => apply keeps_get_param
  | |- keeps _ (stepper_run _) =>
      apply keeps_stepper_run; intros ? ? ?; reflexivity
  | |- keeps _ (if ?b then _ else _) => destruct b
  | |- keeps _ (match ?x with _ => _ end) => destruct x
  | |- keeps _ ?m => let h := head_of m in progress unfold h
  end.

Ltac frame := repeat frame_step.

(** X7. Handling a device callback never disturbs the identify blinker or
    the scheduler: for every buffer and every request in it, the LEDs, the
    blink counter, the queued callbacks, the pending alarms, the pin
    configuration, the identify-time attribute and the basic, scenes and
    groups attributes are as before. *)
Theorem zcl_device_cb_frame (bufid : Z) (w : world) :
  let w' := final (zcl_device_cb bufid w) in
  leds w' = leds w ∧ blink_status w' = blink_status w
  ∧ callbacks w' = callbacks w ∧ alarms w' = alarms w
  ∧ gpio_dir w' = gpio_dir w
  ∧ identify_attr (dev_ctx w') = identify_attr (dev_ctx w)
  ∧ basic_attr (dev_ctx w') = basic_attr (dev_ctx w)
  ∧ scenes_attr (dev_ctx w') = scenes_attr (dev_ctx w)
  ∧ groups_attr (dev_ctx w') = groups_attr (dev_ctx w).
Proof.
  cbv zeta.
  assert (H1 : keeps leds (zcl_device_cb bufid)) by frame.
  assert (H2 : keeps blink_status (zcl_device_cb bufid)) by frame.
  assert (H3 : keeps callbacks (zcl_device_cb bufid)) by frame.
  assert (H4 : keeps alarms (zcl_device_cb bufid)) by frame.
  assert (H5 : keeps gpio_dir (zcl_device_cb bufid)) by frame.
  assert (H6 : keeps (λ w, identify_attr (dev_ctx w)) (zcl_device_cb bufid)) by frame.
  assert (H7 : keeps (λ w, basic_attr (dev_ctx w)) (zcl_device_cb bufid)) by frame.
  assert (H8 : keeps (λ w, scenes_attr (dev_ctx w)) (zcl_device_cb bufid)) by frame.
  assert (H9 : keeps (λ w, groups_attr (dev_ctx w)) (zcl_device_cb bufid)) by frame.
  split; [apply H1|]. split; [apply H2|]. split; [apply H3|].
  split; [apply H4|]. split; [apply H5|]. split; [apply H6|].
  split; [apply H7|]. split; [apply H8|apply H9].
Qed.

(** X8. The identify and button paths never write the attribute store, a
    pin or a stack buffer: [start_identifying], [button_changed],
    [identify_cb], [toggle_identify_led] and the scheduler steps that run
    them leave the device context, every pin latch and configuration, the
    motor trace and the buffers as they were, also when
    [start_identifying] ends in the error handler. *)
Theorem identify_paths_frame :
  (∀ bufid, leaves_store_and_pins (start_identifying bufid))
  ∧ (∀ st ch, leaves_store_and_pins (button_changed st ch))
  ∧ (∀ bufid, leaves_store_and_pins (identify_cb bufid))
  ∧ (∀ bufid, leaves_store_and_pins (toggle_identify_led bufid))
  ∧ leaves_store_and_pins zb_sched_callback
  ∧ leaves_store_and_pins zb_sched_alarm.
Proof.
  unfold leaves_store_and_pins.
  repeat match goal with
         | |- _ ∧ _ => split
         | |- ∀ _, _ => intros ?
         end; frame.
Qed.

(** ** Motor effects of whole runs *)


Lemma motor_steps_trans (w w1 w2 : world) (r1 r2 : list bool) :
  motor_steps w w1 r1 → motor_steps w1 w2 r2 → motor_steps w w2 (r1 ++ r2).
Proof.
  intros (Ht1 & Ho1 & Hd1) (Ht2 & Ho2 & Hd2). unfold motor_steps.
  rewrite Ht2, Ht1, Ho2, Ho1, Hd2, Hd1, map_app, concat_app, foldl_app.
  by rewrite app_assoc.
Qed.

Lemma moves_of_keeps {A} (m : M A) :
  keeps hw_trace m → keeps gpio_out m → keeps gpio_dir m → moves m.
Proof.
  intros Ht Ho Hd w. exists []. unfold motor_steps. simpl.
  by rewrite Ht, Ho, Hd, app_nil_r.
Qed.

Lemma moves_bind {A B} (m : M A) (k : A → M B) :
  moves m → (∀ a, moves (k a)) → moves (bind m k).
Proof.
  intros Hm Hk w. destruct (Hm w) as (r1 & H1). unfold bind.
  destruct (m w) as [a w1|e w1]; simpl in *; [|by exists r1].
  destruct (Hk a w1) as (r2 & H2). exists (r1 ++ r2).
  by apply motor_steps_trans with w1.
Qed.

Lemma moves_stepper_run (dir : bool) : moves (stepper_run dir).
Proof.
  intros w. exists [dir]. rewrite stepper_run_run. unfold motor_steps.
  cbn [final map concat foldl upd_hw hw_trace gpio_out gpio_dir].
  by rewrite app_nil_r.
Qed.

(** Splits an action and finds the calls of [stepper_run] in it. *)
Ltac motor_step :=
  lazymatch goal with
  | |- moves (stepper_run _) => apply moves_stepper_run
  | |- moves (bind _ _) => apply moves_bind; [|intros ?]
  | |- moves (if ?b then _ else _) => destruct b
  | |- moves (match ?x with _ => _ end) => destruct x
  | |- moves (zcl_device_cb _) => unfold zcl_device_cb
  | |- moves (on_off_set_value _) => unfold on_off_set_value
  | |- moves (handle _) => unfold handle
  | |- moves _ => apply moves_of_keeps; frame
  end.

Ltac motor := repeat motor_step.

Lemma moves_handle (e : app_event) : moves (handle e).
Proof. destruct e; motor. Qed.

Lemma moves_run_events (es : list app_event) : moves (run_events es).
Proof.
  induction es as [|e es IH]; simpl.
  - apply moves_of_keeps; frame.
  - apply moves_bind; [apply moves_handle | intros _; exact IH].
Qed.

Lemma steps_while_enabled_app (en : bool) (t u : list hw_event) :
  steps_while_enabled en (t ++ u)
  = steps_while_enabled en t && steps_while_enabled (foldl enabled_after en t) u.
Proof.
  revert en. induction t as [|e t IH]; intros en; simpl; [reflexivity|].
  by rewrite IH, andb_assoc.
Qed.

Lemma run_trace_enabled (en dir : bool) :
  steps_while_enabled en (run_trace dir) = true
  ∧ foldl enabled_after en (run_trace dir) = false.
Proof. destruct en, dir; vm_compute; split; reflexivity. Qed.

Lemma step_pulses_app (t u : list hw_event) :
  step_pulses (t ++ u) = (step_pulses t + step_pulses u)%nat.
Proof. unfold step_pulses. by rewrite List.filter_app, length_app. Qed.

Lemma runs_traces (runs : list bool) :
  let t := concat (map run_trace runs) in
  steps_while_enabled false t = true
  ∧ foldl enabled_after false t = false
  ∧ actuations t = length runs
  ∧ step_pulses t = (100 * length runs)%nat
  ∧ length t = (403 * length runs)%nat.
Proof.
  induction runs as [|d runs IH]; [by vm_compute|].
  destruct IH as (Hs & He & Ha & Hp & Hl). cbv zeta.
  change (concat (map run_trace (d :: runs)))
    with (run_trace d ++ concat (map run_trace runs)).
  destruct (run_trace_enabled false d) as (Hs1 & He1).
  rewrite steps_while_enabled_app, foldl_app, actuations_app, step_pulses_app,
    length_app, Hs1, He1, Hs, He, Ha, Hp, Hl, actuations_run_trace.
  assert (step_pulses (run_trace d) = 100%nat) as -> by (destruct d; reflexivity).
  assert (length (run_trace d) = 403%nat) as -> by (destruct d; reflexivity).
  simpl length. repeat split; lia.
Qed.

Lemma run_outs_idle (runs : list bool) (out : gset Z) :
  motor_enable ∈ out → motor_step ∉ out →
  motor_enable ∈ foldl (fun o d => run_out d o) out runs
  ∧ motor_step ∉ foldl (fun o d => run_out d o) out runs.
Proof.
  destruct motor_pins_distinct as (Hsd & Hse & Hde).
  revert out. induction runs as [|d runs IH]; intros out He Hs; simpl; [done|].
  apply IH; unfold run_out; destruct d; set_solver.
Qed.

(** X9. Whatever the vendor side does, in whatever order - requests of the
    stack, identify notifications, button changes, scheduler steps - a
    motor at rest is at rest again when the application returns.  The motor
    events of the whole run are complete actuation sequences: 100 rising
    edges on the step pin for every enabling of the drive, each edge while
    the drive is enabled. *)
Theorem motor_rests_between_events (es : list app_event) (w : world) :
  motor_idle w →
  let w' := final (run_events es w) in
  motor_idle w'
  ∧ steps_while_enabled false (new_events w w') = true
  ∧ step_pulses (new_events w w') = (100 * actuations (new_events w w'))%nat.
Proof.
  intros (Hds & Hdd & Hde & He & Hs). cbv zeta.
  destruct (moves_run_events es w) as (runs & Ht & Ho & Hd).
  destruct (runs_traces runs) as (Hsafe & _ & Ha & Hp & _).
  destruct (run_outs_idle runs (gpio_out w) He Hs) as (He' & Hs').
  unfold new_events. rewrite Ht, drop_app_length, Ha, Hp.
  split; [|by split].
  unfold motor_idle. by rewrite Hd, Ho.
Qed.

Lemma motor_rests_between_events_witness :
  motor_idle (final (run_events
    [ZclRequest 1 (on_off_write 0); ButtonChange 0 8; SchedulerCallback;
     ZclRequest 1 (on_off_write 1)]
    (final (app_init 8 (reset_world vendor_joined ∅))))).
Proof.
  apply (motor_rests_between_events _
           (final (app_init 8 (reset_world vendor_joined ∅)))).
  vm_compute. set_solver.
Defined.

(** ** The attribute bridge, further *)







(** X11. The bridge compares the low bytes of the identifiers: a write
    whose cluster identifier has the low byte 0x06 and whose attribute
    identifier has the low byte 0x00 is handled as a write to the on/off
    attribute, whatever the high bytes are: its byte is stored and the
    motor runs. *)
Theorem low_bytes_decide (bufid : Z) (p : zb_zcl_device_callback_param_t)
  (w : world) :
  bufs w !! bufid = Some p →
  device_cb_id p = ZB_ZCL_SET_ATTR_VALUE_CB_ID →
  to_uint8 (cluster_id (set_attr_value_param p)) = ZB_ZCL_CLUSTER_ID_ON_OFF →
  to_uint8 (attr_id (set_attr_value_param p)) = ZB_ZCL_ATTR_ON_OFF_ON_OFF_ID →
  ∃ w', zcl_device_cb bufid w = Done tt w'
    ∧ on_off (on_off_attr (dev_ctx w')) = to_uint8 (data8 (set_attr_value_param p))
    ∧ actuations (new_events w w') = 1%nat
    ∧ reply_status bufid w' = Some RET_OK.
Proof.
  intros Hp Hid Hc Ha.
  destruct (zcl_device_cb_write_run bufid p w Hp Hid)
    as (w' & Hrun & Hst & Hctx & Htr & _).
  rewrite Hc in Hst, Hctx, Htr. rewrite Ha in Hctx, Htr.
  simpl in Hst, Hctx, Htr.
  exists w'. split; [exact Hrun|]. split; [by rewrite Hctx|].
  split; [|exact Hst].
  unfold new_events. by rewrite Htr, drop_app_length, actuations_run_trace.
Qed.

Lemma low_bytes_decide_witness :
  ∃ w', zcl_device_cb 1 (with_request (write_to 1030 16384 1)) = Done tt w'
    ∧ on_off (on_off_attr (dev_ctx w')) = 1
    ∧ actuations (new_events (with_request (write_to 1030 16384 1)) w') = 1%nat
    ∧ reply_status 1 w' = Some RET_OK.
Proof.
  apply (low_bytes_decide 1 (write_to 1030 16384 1)); reflexivity.
Defined.

(** X12. A device callback that is not an attribute write is handed to
    [zcl_scenes_cb], once; the answer is [RET_OK] when that function
    handled it and [RET_NOT_IMPLEMENTED] when it did not.  The attributes
    and the motor are left alone. *)
Theorem other_callback_to_scenes (bufid id : Z) (p : zb_zcl_device_callback_param_t)
  (w : world) :
  bufs w !! bufid = Some p →
  device_cb_id p = ZB_ZCL_OTHER_CB_ID id →
  ∃ w', zcl_device_cb bufid w = Done tt w'
    ∧ reply_status bufid w'
        = Some (if zcl_scenes_handled (vendor w) then RET_OK else RET_NOT_IMPLEMENTED)
    ∧ vendor_calls w' = vendor_calls w ++ [Call_zcl_scenes_cb bufid]
    ∧ dev_ctx w' = dev_ctx w
    ∧ hw_trace w' = hw_trace w.
Proof.
  intros Hp Hid. unfold zcl_device_cb.
  step (get_param_run _ _ _ Hp).
  step (LOG_INF_run _ _ _).
  step (set_status_run _ _ _).
  rewrite Hid.
  assert (Hp' : alter (with_status RET_OK) bufid (bufs w) !! bufid
                = Some (with_status RET_OK p)).
  { by rewrite lookup_alter_eq, Hp. }
  destruct (zcl_scenes_handled (vendor w)) eqn:Hs.
  - match goal with |- context [bind (bind ?m ?k) _ ?x] =>
      assert (Hin : bind m k x
                    = Done tt (add_vendor_call (Call_zcl_scenes_cb bufid) x))
    end.
    { unfold zcl_scenes_cb, bind, gets. simpl. by rewrite Hs. }
    step Hin.
    match goal with |- context [bind (ZB_BUF_GET_PARAM bufid) _ ?y] =>
      step (get_param_run bufid _ y Hp')
    end.
    eexists. split; [apply LOG_INF_run|].
    unfold reply_status. simpl. by rewrite lookup_alter_eq, Hp.
  - match goal with |- context [bind (bind ?m ?k) _ ?x] =>
      assert (Hin : bind m k x
        = Done tt (set_bufs (alter (with_status RET_NOT_IMPLEMENTED) bufid (bufs x))
                     (add_vendor_call (Call_zcl_scenes_cb bufid) x)))
    end.
    { unfold zcl_scenes_cb, bind, gets. simpl. by rewrite Hs. }
    step Hin.
    match goal with |- context [bind (ZB_BUF_GET_PARAM bufid) _ ?y] =>
      step (get_param_altered bufid _ RET_NOT_IMPLEMENTED _ y Hp' eq_refl)
    end.
    eexists. split; [apply LOG_INF_run|].
    unfold reply_status. simpl. by rewrite !lookup_alter_eq, Hp.
Qed.

Lemma other_callback_to_scenes_witness :
  ∃ w', zcl_device_cb 1 (with_request (other_callback 7)) = Done tt w'
    ∧ reply_status 1 w' = Some RET_NOT_IMPLEMENTED
    ∧ vendor_calls w' = [Call_zcl_scenes_cb 1].
Proof.
  destruct (other_callback_to_scenes 1 7 (other_callback 7)
              (with_request (other_callback 7)))
    as (w' & Hrun & Hst & Hcalls & _); [reflexivity..|].
  exists w'. split; [exact Hrun|]. split; [exact Hst|exact Hcalls].
Defined.

(** ** Identify and the button, further *)

(** X13. When the device is joined and no identify countdown runs,
    [start_identifying] asks the stack to enter identify mode and then:
    on [RET_OK] it reports the entry and returns; on [RET_INVALID_STATE] it
    warns and returns; on every other answer it ends in the fatal error
    handler, with nothing written to the console. *)
Theorem start_identifying_outcomes (bufid : Z) (w : world) :
  ZB_JOINED (vendor w) = true →
  identify_time (identify_attr (dev_ctx w))
    = ZB_ZCL_IDENTIFY_IDENTIFY_TIME_DEFAULT_VALUE →
  let w1 := add_vendor_call
              (Call_zb_bdb_finding_binding_target CHICKEN_COOP_ENDPOINT) w in
  start_identifying bufid w
  = match finding_binding_target_ret (vendor w) with
    | RET_OK => Done tt (add_console msg_enter w1)
    | RET_INVALID_STATE => Done tt (add_console msg_invalid_state w1)
    | r => Fatal (ErrorCheck r) w1
    end.
Proof.
  intros Hj Ht. unfold start_identifying, bind, gets.
  rewrite Hj, Ht. simpl.
  destruct (finding_binding_target_ret (vendor w)); reflexivity.
Qed.

Lemma start_identifying_outcomes_witness :
  start_identifying 0 (reset_world (vendor_answering (RET_OTHER (-1))) ∅)
  = Fatal (ErrorCheck (RET_OTHER (-1)))
      (add_vendor_call (Call_zb_bdb_finding_binding_target 10)
         (reset_world (vendor_answering (RET_OTHER (-1))) ∅)).
Proof.
  apply (start_identifying_outcomes 0
           (reset_world (vendor_answering (RET_OTHER (-1))) ∅)); reflexivity.
Defined.

(** X14. [button_changed] always returns and hands every event on to
    [check_factory_reset_button], once, with the masks it received, as its
    last call; before that it asks [was_factory_reset_done] only on a
    release of the identify button. *)
Theorem button_changed_forwards (button_state has_changed : Z) (w : world) :
  ∃ w', button_changed button_state has_changed w = Done tt w'
    ∧ vendor_calls w'
        = vendor_calls w
          ++ (if negb (Z.land IDENTIFY_MODE_BUTTON has_changed =? 0)
                 && (Z.land IDENTIFY_MODE_BUTTON button_state =? 0)
              then [Call_was_factory_reset_done] else [])
          ++ [Call_check_factory_reset_button button_state has_changed]
    ∧ last (vendor_calls w')
        = Some (Call_check_factory_reset_button button_state has_changed).
Proof.
  unfold button_changed, bind.
  destruct (Z.land IDENTIFY_MODE_BUTTON has_changed =? 0); cbn [negb andb].
  - eexists. split; [reflexivity|]. simpl. split; [reflexivity|apply last_snoc].
  - destruct (Z.land IDENTIFY_MODE_BUTTON button_state =? 0); cbn [negb].
    + unfold was_factory_reset_done, bind, gets. simpl.
      destruct (factory_reset_done (vendor w));
        (eexists; split; [reflexivity|]); simpl;
        (split; [by rewrite <- app_assoc|apply last_snoc]).
    + eexists. split; [reflexivity|]. simpl. split; [reflexivity|apply last_snoc].
Qed.

Lemma land_button_0 (x : Z) :
  Z.testbit x 3 = false → Z.land IDENTIFY_MODE_BUTTON x = 0.
Proof.
  intros Hx. apply Z.bits_inj'. intros n Hn.
  rewrite Z.land_spec, Z.bits_0.
  change IDENTIFY_MODE_BUTTON with (2 ^ 3).
  rewrite Z.pow2_bits_eqb by lia.
  destruct (Z.eqb_spec 3 n) as [<-|]; [by rewrite Hx|reflexivity].
Qed.

(** X15. The identify button is bit 3 of the masks.  When that bit of the
    changed-mask is clear, whatever the other buttons do, [button_changed]
    only forwards the event: nothing is scheduled and the factory-reset
    helper is not asked whether a reset was done. *)
Theorem other_buttons_ignored (button_state has_changed : Z) (w : world) :
  Z.testbit has_changed 3 = false →
  button_changed button_state has_changed w
  = Done tt (add_vendor_call
               (Call_check_factory_reset_button button_state has_changed) w).
Proof.
  intros Hc. unfold button_changed, bind.
  by rewrite (land_button_0 _ Hc).
Qed.

Lemma other_buttons_ignored_witness :
  button_changed 7 7 (reset_world vendor_joined ∅)
  = Done tt (add_vendor_call (Call_check_factory_reset_button 7 7)
               (reset_world vendor_joined ∅)).
Proof. apply other_buttons_ignored. reflexivity. Defined.

(** X16. From the button to the stack: when nothing else is queued, the
    device is joined and idle, and no factory reset happened during the
    hold, a release of the identify button followed by one scheduler step
    asks the stack to enter identify mode on the coop endpoint, and the
    queue is empty again. *)
Theorem button_release_starts_identify (button_state has_changed : Z) (w : world) :
  Z.land IDENTIFY_MODE_BUTTON has_changed ≠ 0 →
  Z.land IDENTIFY_MODE_BUTTON button_state = 0 →
  factory_reset_done (vendor w) = false →
  callbacks w = [] →
  ZB_JOINED (vendor w) = true →
  identify_time (identify_attr (dev_ctx w))
    = ZB_ZCL_IDENTIFY_IDENTIFY_TIME_DEFAULT_VALUE →
  let w' := final (run_events
                     [ButtonChange button_state has_changed; SchedulerCallback] w) in
  vendor_calls w'
    = vendor_calls w
      ++ [Call_was_factory_reset_done;
          Call_check_factory_reset_button button_state has_changed;
          Call_zb_bdb_finding_binding_target CHICKEN_COOP_ENDPOINT]
  ∧ callbacks w' = [].
Proof.
  intros Hc Hs Hd Hq Hj Ht. cbv zeta.
  apply Z.eqb_neq in Hc. apply Z.eqb_eq in Hs.
  assert (Hb : button_changed button_state has_changed w
               = Done tt (add_vendor_call
                            (Call_check_factory_reset_button button_state has_changed)
                            (set_callbacks [(CB_start_identifying, 0)]
                               (add_vendor_call Call_was_factory_reset_done w)))).
  { unfold button_changed, bind. rewrite Hc, Hs. cbn [negb].
    unfold was_factory_reset_done, bind, gets. simpl. rewrite Hd. simpl.
    unfold add_vendor_call, set_callbacks. simpl. by rewrite Hq. }
  cbn [run_events handle]. step Hb.
  match goal with |- context [bind zb_sched_callback _ ?x] =>
    assert (Hcb : zb_sched_callback x
                  = start_identifying 0 (set_callbacks [] x)) by reflexivity;
    assert (Hst : ∃ o, start_identifying 0 (set_callbacks [] x) = o
                    ∧ vendor_calls (final o)
                        = vendor_calls x
                          ++ [Call_zb_bdb_finding_binding_target CHICKEN_COOP_ENDPOINT]
                    ∧ callbacks (final o) = [])
  end.
  { eexists. split; [reflexivity|].
    unfold start_identifying, bind, gets. simpl. rewrite Hj. simpl.
    rewrite Ht. simpl.
    destruct (finding_binding_target_ret (vendor w)); by split. }
  destruct Hst as (o & Ho & Hcalls & Hcbs).
  unfold bind. rewrite Hcb, Ho.
  destruct o as [[] w2|e w2]; simpl in *;
    (split; [rewrite Hcalls; by rewrite <- !app_assoc|exact Hcbs]).
Qed.

Lemma button_release_starts_identify_witness :
  vendor_calls (final (run_events [ButtonChange 0 8; SchedulerCallback]
                         (reset_world vendor_joined ∅)))
  = [Call_was_factory_reset_done; Call_check_factory_reset_button 0 8;
     Call_zb_bdb_finding_binding_target 10].
Proof.
  apply (button_release_starts_identify 0 8 (reset_world vendor_joined ∅));
    [discriminate|reflexivity..].
Defined.

Lemma run_events_app (es1 es2 : list app_event) (w : world) :
  run_events (es1 ++ es2) w = bind (run_events es1) (fun _ => run_events es2) w.
Proof.
  revert w. induction es1 as [|e es1 IH]; intros w; [reflexivity|].
  simpl. unfold bind. destruct (handle e w) as [[] w1|f w1]; [|reflexivity].
  apply IH.
Qed.

Lemma run_events_alarms (n : nat) (w : world) :
  run_events (replicate n SchedulerAlarm) w = repeat_m n zb_sched_alarm w.
Proof.
  revert w. induction n as [|n IH]; intros w; [reflexivity|].
  simpl. unfold bind. destruct (zb_sched_alarm w) as [[] w1|f w1]; [|reflexivity].
  apply IH.
Qed.

Lemma keeps_repeat_m {T} (f : world → T) (n : nat) (m : M unit) :
  keeps f m → keeps f (repeat_m n m).
Proof.
  intros Hm. induction n as [|n IH]; simpl.
  - apply keeps_ret.
  - apply keeps_bind; [exact Hm|intros _; exact IH].
Qed.

(** X17. A whole identify session - the notification with a buffer, the
    queued first toggle, any number [n] of firings of the blink alarm, the
    notification with buffer 0 - started with nothing queued or pending,
    ends with nothing queued or pending and the identify LED off.  The blink
    counter has advanced by [n + 1] and is not reset. *)
Theorem identify_session_ends_dark (bufid : Z) (n : nat) (w : world) :
  bufid ≠ 0 → callbacks w = [] → alarms w = [] →
  ∃ w', run_events (identify_session bufid n) w = Done tt w'
    ∧ callbacks w' = [] ∧ alarms w' = []
    ∧ lit w' = false
    ∧ Z.odd (blink_status w') = Z.odd (blink_status w + 1 + Z.of_nat n).
Proof.
  intros Hb Hq Ha. apply Z.eqb_neq in Hb.
  unfold identify_session. cbn [app run_events handle].
  assert (H1 : identify_cb bufid w
               = Done tt (set_callbacks [(CB_toggle_identify_led, bufid)] w)).
  { unfold identify_cb. rewrite Hb. cbn [negb].
    unfold ZB_SCHEDULE_APP_CALLBACK, modify. by rewrite Hq. }
  step H1.
  match goal with |- context [bind zb_sched_callback _ ?x] =>
    assert (H2 : zb_sched_callback x
                 = toggle_identify_led bufid (set_callbacks [] x)) by reflexivity;
    pose proof (toggle_identify_led_run bufid (set_callbacks [] x)) as H3
  end.
  rewrite <- H2 in H3. cbv zeta in H3. step H3.
  match type of H3 with _ = Done tt ?x => set (w1 := x) in * end.
  rewrite run_events_app. unfold bind at 1. rewrite run_events_alarms.
  destruct (blinking_run n bufid w1) as (w2 & Hrun & Hal & Hodd & _).
  { subst w1. simpl. by rewrite Ha. }
  rewrite Hrun. cbn [run_events handle].
  assert (Hq2 : callbacks w2 = []).
  { assert (keeps callbacks (repeat_m n zb_sched_alarm)) as Hk
      by (apply keeps_repeat_m; frame).
    specialize (Hk w1). by rewrite Hrun in Hk. }
  eexists. split; [reflexivity|]. simpl.
  rewrite Hq2, Hal. simpl.
  split; [reflexivity|]. split; [reflexivity|].
  split; [apply bool_decide_eq_false; set_solver|].
  rewrite Hodd. subst w1. simpl blink_status.
  rewrite !Z.odd_add, odd_to_int, !Z.odd_add. reflexivity.
Qed.

Lemma identify_session_ends_dark_witness :
  ∃ w', run_events (identify_session 1 5) (reset_world vendor_joined ∅) = Done tt w'
    ∧ callbacks w' = [] ∧ alarms w' = [] ∧ lit w' = false
    ∧ Z.odd (blink_status w') = Z.odd (0 + 1 + 5).
Proof.
  apply (identify_session_ends_dark 1 5 (reset_world vendor_joined ∅));
    [discriminate|reflexivity..].
Defined.

(** ** Who writes which attribute *)

Lemma keeps_run_events {T} (f : world → T) (es : list app_event) :
  (∀ e, e ∈ es → keeps f (handle e)) → keeps f (run_events es).
Proof.
  induction es as [|e es IH]; intros He; simpl.
  - apply keeps_ret.
  - apply keeps_bind.
    + apply He. apply list_elem_of_here.
    + intros _. apply IH. intros e' He'. apply He.
      by apply list_elem_of_further.
Qed.

(** X18. After start-up the application never writes the basic, scenes and
    groups attributes, whatever the events.  It never writes the identify
    time: that changes only when the stack writes it.  The on/off attribute
    changes, and the motor moves, only on a device callback. *)
Theorem attributes_written_by (es : list app_event) (w : world) :
  let w' := final (run_events es w) in
  basic_attr (dev_ctx w') = basic_attr (dev_ctx w)
  ∧ scenes_attr (dev_ctx w') = scenes_attr (dev_ctx w)
  ∧ groups_attr (dev_ctx w') = groups_attr (dev_ctx w)
  ∧ (forallb (fun e => negb (is_identify_time_write e)) es = true →
     identify_attr (dev_ctx w') = identify_attr (dev_ctx w))
  ∧ (forallb (fun e => negb (is_zcl_request e)) es = true →
     on_off_attr (dev_ctx w') = on_off_attr (dev_ctx w)
     ∧ hw_trace w' = hw_trace w
     ∧ gpio_out w' = gpio_out w).
Proof.
  cbv zeta.
  assert (H1 : keeps (λ w, basic_attr (dev_ctx w)) (run_events es)).
  { apply keeps_run_events. intros [] _; unfold handle; frame. }
  assert (H2 : keeps (λ w, scenes_attr (dev_ctx w)) (run_events es)).
  { apply keeps_run_events. intros [] _; unfold handle; frame. }
  assert (H3 : keeps (λ w, groups_attr (dev_ctx w)) (run_events es)).
  { apply keeps_run_events. intros [] _; unfold handle; frame. }
  split; [apply H1|]. split; [apply H2|]. split; [apply H3|].
  split.
  - intros Hes.
    assert (H4 : keeps (λ w, identify_attr (dev_ctx w)) (run_events es)).
    { apply keeps_run_events. intros e He.
      apply list_elem_of_In in He.
      pose proof (proj1 (forallb_forall _ _) Hes e He) as Hne.
      destruct e; try discriminate Hne; unfold handle; frame. }
    apply H4.
  - intros Hes.
    assert (He : ∀ e, e ∈ es → is_zcl_request e = false).
    { intros e He. apply list_elem_of_In in He.
      pose proof (proj1 (forallb_forall _ _) Hes e He) as Hne.
      by destruct e. }
    assert (H5 : keeps (λ w, on_off_attr (dev_ctx w)) (run_events es)).
    { apply keeps_run_events. intros e Hin. specialize (He e Hin).
      destruct e; try discriminate He; unfold handle; frame. }
    assert (H6 : keeps hw_trace (run_events es)).
    { apply keeps_run_events. intros e Hin. specialize (He e Hin).
      destruct e; try discriminate He; unfold handle; frame. }
    assert (H7 : keeps gpio_out (run_events es)).
    { apply keeps_run_events. intros e Hin. specialize (He e Hin).
      destruct e; try discriminate He; unfold handle; frame. }
    split; [apply H5|]. split; [apply H6|apply H7].
Qed.

Lemma attributes_written_by_witness :
  identify_attr (dev_ctx (final (run_events
      [ButtonChange 0 8; SchedulerCallback; IdentifyNotification 1; SchedulerCallback]
      (reset_world vendor_joined ∅))))
  = identify_attr (dev_ctx (reset_world vendor_joined ∅))
  ∧ hw_trace (final (run_events
      [ButtonChange 0 8; SchedulerCallback; IdentifyNotification 1; SchedulerCallback]
      (reset_world vendor_joined ∅))) = [].
Proof.
  destruct (attributes_written_by
      [ButtonChange 0 8; SchedulerCallback; IdentifyNotification 1; SchedulerCallback]
      (reset_world vendor_joined ∅)) as (_ & _ & _ & Hid & Hzcl).
  split; [by apply Hid|].
  by destruct Hzcl as (_ & Htr & _).
Defined.

(** X19. The two initialisers that [main] calls, in its order, leave a
    motor whose step latch was clear at rest, without one actuation, while
    the on/off attribute already reads "on" and the identify time is at its
    default: the attribute is set without the motor having moved. *)
Theorem app_init_at_rest (zcl_ver : Z) (w : world) :
  motor_step ∉ gpio_out w →
  ∃ w', app_init zcl_ver w = Done tt w'
    ∧ motor_idle w'
    ∧ actuations (new_events w w') = 0%nat
    ∧ step_pulses (new_events w w') = 0%nat
    ∧ on_off (on_off_attr (dev_ctx w')) = ZB_ZCL_ON_OFF_IS_ON
    ∧ identify_time (identify_attr (dev_ctx w'))
        = ZB_ZCL_IDENTIFY_IDENTIFY_TIME_DEFAULT_VALUE.
Proof.
  intros Hs. destruct motor_pins_distinct as (Hsd & Hse & Hde).
  unfold app_init.
  match goal with |- context [bind ?m _ w] =>
    destruct (m w) as [[] w0|e w0] eqn:Hinit; [|discriminate Hinit]
  end.
  injection Hinit as <-.
  eexists. split.
  { unfold bind. cbn [bulb_clusters_attr_init]. apply stepper_init_run. }
  unfold motor_idle, new_events. simpl.
  rewrite drop_app_length.
  repeat match goal with |- _ ∧ _ => split end; try reflexivity; set_solver.
Qed.

Lemma app_init_at_rest_witness :
  ∃ w', app_init 8 (reset_world vendor_joined ∅) = Done tt w'
    ∧ motor_idle w'
    ∧ on_off (on_off_attr (dev_ctx w')) = 1.
Proof.
  destruct (app_init_at_rest 8 (reset_world vendor_joined ∅))
    as (w' & Hrun & Hidle & _ & _ & Hon & _); [set_solver|].
  exists w'. split; [exact Hrun|]. split; [exact Hidle|exact Hon].
Defined.
